(** * food-lover-server: the request / validation / persistence pipeline

    A shallow embedding of [src/index.js]: the Express route handlers over
    the two MongoDB collections [reviews] and [favorites].

    Scope of the embedding.
    - A request body is a JSON object whose fields hold JSON scalars
      ([json]): strings, integers, booleans, null. Arrays, objects and
      non-integral numbers as field values are outside the model, and so
      are query parameters that are not strings.
    - A stored document is a finite map from field names to BSON scalars
      ([value]): the JSON scalars, [Date] and [ObjectId]. A field name with
      a dot in it is kept as one name: update paths into embedded
      documents are outside the model, and the properties of the writes
      are stated for plain field names ([plain_body]).
    - Strings are the UTF-8 bytes of the text.
    - Three library predicates are parameters of the handlers that depend
      on them: validator.js's [isEmail], the storage's case-insensitive
      regular expressions, and the languages of its text search. The
      instances [Email.isEmail], [Regex.compile] and [Text.language_ok]
      cover a part of each and serve to run the handlers on examples.
    - The handlers run one at a time (no interleaving of requests). *)

From Stdlib Require Import ZArith NArith Ascii String.
From Stdlib Require OrderedTypeEx.
From stdpp Require Import gmap strings list fin_maps sorting pretty.

Open Scope string_scope.
Open Scope Z_scope.

(** ** JavaScript and BSON scalars *)

(** A JS number, restricted to the integers, and [NaN]. *)
Inductive number := Int (z : Z) | NaN.

(** What [express.json()] can put in a field of [req.body], the scalars:
    [JNum z] is a number that is an integer, of a size that JS prints in
    plain decimal. *)
Inductive json :=
  | JNull
  | JBool (b : bool)
  | JNum (z : Z)
  | JStr (s : string).

(** What a field of a stored document can hold. [VDate] carries the
    milliseconds of a [Date], [VId] the 96-bit value of an [ObjectId]. *)
Inductive value :=
  | VNull
  | VBool (b : bool)
  | VNum (n : number)
  | VStr (s : string)
  | VDate (ms : Z)
  | VId (o : N).

#[global] Instance number_eq_dec : EqDecision number.
Proof. solve_decision. Defined.
#[global] Instance json_eq_dec : EqDecision json.
Proof. solve_decision. Defined.
#[global] Instance value_eq_dec : EqDecision value.
Proof. solve_decision. Defined.

(** The BSON encoding of a JSON scalar, as the driver serialises it. *)
Definition of_json (j : json) : value :=
  match j with
  | JNull => VNull
  | JBool b => VBool b
  | JNum z => VNum (Int z)
  | JStr s => VStr s
  end.

(** A request body, and a stored document. *)
Abbreviation body := (gmap string json).
Abbreviation doc := (gmap string value).

(** ** Strings *)

Module Str.

(** The white space of ECMAScript (WhiteSpace and LineTerminator) that
    is one byte long: tab, line feed, vertical tab, form feed, carriage
    return, space. *)
Definition is_ws (a : ascii) : bool :=
  let n := nat_of_ascii a in
  ((9 <=? n)%nat && (n <=? 13)%nat) || (n =? 32)%nat.

(** The white space that is three bytes long: U+1680, U+2000 to U+200A,
    U+2028, U+2029, U+202F, U+205F, U+3000 and U+FEFF. *)
Definition ws3 (a b c : N) : bool :=
  ((a =? 225) && (b =? 154) && (c =? 128))%N
  || ((a =? 226) && (b =? 128)
      && (((128 <=? c) && (c <=? 138)) || (c =? 168) || (c =? 169)
          || (c =? 175)))%N
  || ((a =? 226) && (b =? 129) && (c =? 159))%N
  || ((a =? 227) && (b =? 128) && (c =? 128))%N
  || ((a =? 239) && (b =? 187) && (c =? 191))%N.

(** The length in bytes of the white space character a text starts with,
    0 when it starts with none. The two byte one is U+00A0. *)
Definition ws_len (l : list ascii) : nat :=
  match l with
  | [] => 0
  | a :: l1 =>
      if is_ws a then 1 else
      match l1 with
      | [] => 0
      | b :: l2 =>
          if ((N_of_ascii a =? 194) && (N_of_ascii b =? 160))%N then 2 else
          match l2 with
          | [] => 0
          | c :: _ =>
              if ws3 (N_of_ascii a) (N_of_ascii b) (N_of_ascii c) then 3
              else 0
          end
      end
  end.

(** The same for the character a text ends with, on the reversed text. *)
Definition ws_len_back (r : list ascii) : nat :=
  match r with
  | [] => 0
  | c :: r1 =>
      if is_ws c then 1 else
      match r1 with
      | [] => 0
      | b :: r2 =>
          if ((N_of_ascii b =? 194) && (N_of_ascii c =? 160))%N then 2 else
          match r2 with
          | [] => 0
          | a :: _ =>
              if ws3 (N_of_ascii a) (N_of_ascii b) (N_of_ascii c) then 3
              else 0
          end
      end
  end.

Definition is_digit (a : ascii) : bool :=
  let n := nat_of_ascii a in (48 <=? n)%nat && (n <=? 57)%nat.

Definition digit_val (a : ascii) : Z := Z.of_nat (nat_of_ascii a) - 48.

Definition lower (a : ascii) : ascii :=
  let n := nat_of_ascii a in
  if (65 <=? n)%nat && (n <=? 90)%nat then ascii_of_nat (n + 32) else a.

(** Drop white space characters, as measured by [len], from the head of a
    text; [fuel] bounds the number of characters dropped. *)
Fixpoint drop_ws (len : list ascii -> nat) (fuel : nat) (l : list ascii)
    : list ascii :=
  match fuel with
  | O => l
  | S fuel' =>
      match len l with
      | O => l
      | k => drop_ws len fuel' (drop k l)
      end
  end.

(** [String.prototype.trim]: white space is dropped at both ends. *)
Definition trim (s : string) : string :=
  let l := list_ascii_of_string s in
  let front := drop_ws ws_len (length l) l in
  string_of_list_ascii
    (rev (drop_ws ws_len_back (length l) (rev front))).

(** The value of a run of decimal digits, most significant first. *)
Definition digits_val (l : list ascii) : Z :=
  fold_left (fun acc a => 10 * acc + digit_val a) l 0.

(** [[-+]?[0-9]+] : an optional sign and at least one digit. *)
Definition signed_digits (l : list ascii) : option Z :=
  let unsigned (l : list ascii) :=
    match l with
    | [] => None
    | _ => if forallb is_digit l then Some (digits_val l) else None
    end in
  match l with
  | "-"%char :: l' => Z.opp <$> unsigned l'
  | "+"%char :: l' => unsigned l'
  | _ => unsigned l
  end.

End Str.

(** [Number(s)] for a string: white space is trimmed, the empty string is
    0, an optionally signed run of digits is its value, any other text is
    [NaN]. Numerals that are not integers (fractions, exponents, hex,
    [Infinity]) are outside the integer model and are [NaN] here too. *)
Definition StringToNumber (s : string) : number :=
  match list_ascii_of_string (Str.trim s) with
  | [] => Int 0
  | l => match Str.signed_digits l with
         | Some z => Int z
         | None => NaN
         end
  end.

(** ** ObjectId *)

Module Hex.

Definition digit (a : ascii) : option N :=
  let n := N_of_ascii (Str.lower a) in
  if (48 <=? n)%N && (n <=? 57)%N then Some (n - 48)%N
  else if (97 <=? n)%N && (n <=? 102)%N then Some (n - 87)%N
  else None.

Fixpoint value (acc : N) (l : list ascii) : option N :=
  match l with
  | [] => Some acc
  | a :: l' =>
      match digit a with
      | Some d => value (16 * acc + d)%N l'
      | None => None
      end
  end.

Definition of_digit (d : N) : ascii :=
  if (d <? 10)%N then ascii_of_N (48 + d) else ascii_of_N (87 + d).

Fixpoint print (k : nat) (n : N) (acc : list ascii) : list ascii :=
  match k with
  | O => acc
  | S k' => print k' (n / 16)%N (of_digit (n mod 16)%N :: acc)
  end.

End Hex.

(** [new ObjectId(s)] for a string [s]: a 24 character hex string is an
    identifier, any other string throws ([None]). This is the constructor
    of bson 5 and later; earlier versions also took a 12 character string
    as the twelve bytes. *)
Definition ObjectId (s : string) : option N :=
  let l := list_ascii_of_string s in
  if (length l =? 24)%nat then Hex.value 0%N l else None.

(** [ObjectId.prototype.toString]. *)
Definition toHexString (o : N) : string :=
  string_of_list_ascii (Hex.print 24 o []).

(** [Number(v)] for a field that may be missing ([undefined]). *)
Definition Number (v : option value) : number :=
  match v with
  | None => NaN
  | Some VNull => Int 0
  | Some (VBool b) => Int (if b then 1 else 0)
  | Some (VNum n) => n
  | Some (VStr s) => StringToNumber s
  | Some (VDate ms) => Int ms
  | Some (VId o) => StringToNumber (toHexString o)
  end.

(** ** The storage layer: BSON order, filters, collection operations *)

(** The comparison order of BSON types, for the scalars of the model:
    null, then numbers, strings, ObjectId, booleans, dates. *)
Definition bson_rank (v : value) : nat :=
  match v with
  | VNull => 0
  | VNum _ => 1
  | VStr _ => 2
  | VId _ => 3
  | VBool _ => 4
  | VDate _ => 5
  end.

Definition bson_leb (a b : value) : bool :=
  match a, b with
  | VNull, VNull => true
  | VNum NaN, VNum _ => true
  | VNum (Int _), VNum NaN => false
  | VNum (Int x), VNum (Int y) => x <=? y
  | VStr s, VStr t => String.leb s t
  | VId x, VId y => (x <=? y)%N
  | VBool x, VBool y => implb x y
  | VDate x, VDate y => x <=? y
  | _, _ => (bson_rank a <? bson_rank b)%nat
  end.

(** The sort key of a document: a missing field sorts as null. *)
Definition sort_key (k : string) (d : doc) : value := default VNull (d !! k).

(** [{ k: -1 }]: descending on field [k]. *)
Definition desc_by (k : string) : relation doc :=
  fun d1 d2 => bson_leb (sort_key k d2) (sort_key k d1) = true.

#[global] Instance desc_by_dec k : RelDecision (desc_by k).
Proof. intros d1 d2. unfold desc_by. apply _. Defined.

(** [cursor.sort({ k: -1 })]. The order among equal keys is the storage
    engine's; merge sort fixes one. *)
Definition sort_desc (k : string) (c : list doc) : list doc :=
  merge_sort (desc_by k) c.

(** [cursor.limit(n)]. *)
Definition limit (n : nat) (c : list doc) : list doc := take n c.

(** A part of the storage's regular expressions with [$options: "i"]: the
    patterns made of ordinary characters and the wild card [.], matched
    byte by byte with ASCII case folding, which is what the storage does on
    ASCII texts. The handlers take the regular expressions of the storage
    as a parameter; [Regex.compile] is the instance the examples run, on
    patterns of this fragment only. *)
Module Regex.

Inductive atom := Lit (a : ascii) | Any.

Definition is_meta (a : ascii) : bool :=
  bool_decide (a ∈ list_ascii_of_string "\^$.|?*+()[]{}").

(** [None]: the pattern is not one of the fragment. *)
Fixpoint parse (l : list ascii) : option (list atom) :=
  match l with
  | [] => Some []
  | a :: l' =>
      r ← parse l';
      if bool_decide (a = "."%char) then Some (Any :: r)
      else if is_meta a then None
      else Some (Lit a :: r)
  end.

Definition atom_match (p : atom) (c : ascii) : bool :=
  match p with
  | Lit a => bool_decide (Str.lower a = Str.lower c)
  | Any => negb (bool_decide (c = "010"%char))
  end.

Fixpoint match_here (p : list atom) (s : list ascii) : bool :=
  match p, s with
  | [], _ => true
  | a :: p', c :: s' => atom_match a c && match_here p' s'
  | _ :: _, [] => false
  end.

(** An unanchored match: the pattern matches at some position. *)
Fixpoint search (p : list atom) (s : list ascii) : bool :=
  match_here p s ||
  match s with
  | [] => false
  | _ :: s' => search p s'
  end.

(** A pattern compiled to its matcher. The handlers read [None] as a
    pattern the storage refuses; this instance also answers [None] on the
    valid patterns outside the fragment, so it stands for the storage only
    on patterns made of ordinary characters and [.]. *)
Definition compile (p : string) : option (string -> bool) :=
  r ← parse (list_ascii_of_string p);
  Some (fun s => search r (list_ascii_of_string s)).

End Regex.

(** One condition of a filter document. *)
Inductive cond :=
  | Eq (v : value)                       (* { k: v } *)
  | RegexI (m : string -> bool).         (* { k: { $regex, $options: "i" } },
                                            compiled to its matcher *)

Abbreviation query := (list (string * cond)).

Definition cond_holds (c : cond) (v : option value) : bool :=
  match c, v with
  | Eq w, Some x => bool_decide (x = w)
  | Eq w, None => bool_decide (w = VNull)
  | RegexI m, Some (VStr s) => m s
  | RegexI _, _ => false
  end.

Definition matches (q : query) (d : doc) : bool :=
  forallb (fun kc => cond_holds kc.2 (d !! kc.1)) q.

(** [collection.find(q).toArray()], in storage order. *)
Definition find (q : query) (c : list doc) : list doc :=
  List.filter (matches q) c.

(** [collection.findOne(q)]: [None] is JS [null]. *)
Definition findOne (q : query) (c : list doc) : option doc :=
  head (find q c).

(** The largest ObjectId among the identifiers of a collection. *)
Definition max_oid (c : list doc) : N :=
  foldr (fun (d : doc) (m : N) => match d !! "_id" with
                    | Some (VId o) => N.max o m
                    | _ => m
                    end) 0%N c.

(** The identifier the driver generates for a document that has none:
    ObjectIds are unique, here by being larger than all stored ones. *)
Definition fresh_oid (c : list doc) : N := N.succ (max_oid c).

(** [collection.insertOne(d)]: a missing (or null) [_id] is generated; a
    duplicate [_id] is refused ([None]: the driver throws E11000).
    Returns the inserted identifier and the new collection. *)
Definition insertOne (d : doc) (c : list doc) : option (value * list doc) :=
  let id := match d !! "_id" with
            | None | Some VNull => VId (fresh_oid c)
            | Some v => v
            end in
  if List.existsb (fun e : doc => bool_decide (e !! "_id" = Some id)) c
  then None
  else Some (id, (c ++ [<["_id" := id]> d])%list).

(** A field name that starts with a dollar sign. *)
Definition dollar_key (k : string) : bool :=
  match k with
  | String "$"%char _ => true
  | _ => false
  end.

(** [$set] on one document: the fields of [upd] replace or extend those of
    [d]. Refused ([None]) are a field name that starts with a dollar sign,
    a change of [_id], and a changed document that the indexes of the
    collection do not accept ([accepts]); an update that changes nothing
    writes nothing, so the indexes are not asked. *)
Definition apply_set (accepts : doc -> bool) (upd d : doc) : option doc :=
  let write :=
    if bool_decide (upd ∪ d = d) || accepts (upd ∪ d)
    then Some (upd ∪ d) else None in
  if bool_decide (map_Forall (fun k _ => dollar_key k = false) upd) then
    match upd !! "_id" with
    | Some v => if bool_decide (d !! "_id" = Some v) then write else None
    | None => write
    end
  else None.

(** [collection.updateOne({ _id: o }, { $set: upd })]: the first document
    with that identifier is updated; an empty [upd] changes nothing
    (MongoDB 5.0 and later; earlier servers refuse it). [None]: the driver
    throws. Returns [matchedCount] and the new collection. *)
Fixpoint updateOne (accepts : doc -> bool) (o : N) (upd : doc) (c : list doc)
    : option (nat * list doc) :=
  match c with
  | [] => Some (0%nat, [])
  | d :: c' =>
      if bool_decide (d !! "_id" = Some (VId o)) then
        d' ← apply_set accepts upd d; Some (1%nat, d' :: c')
      else
        '(n, c'') ← updateOne accepts o upd c'; Some (n, d :: c'')
  end.

(** [collection.deleteOne({ _id: o })]: [deletedCount] and the rest. *)
Fixpoint deleteOne (o : N) (c : list doc) : nat * list doc :=
  match c with
  | [] => (0%nat, [])
  | d :: c' =>
      if bool_decide (d !! "_id" = Some (VId o)) then (1%nat, c')
      else let '(n, c'') := deleteOne o c' in (n, d :: c'')
  end.

(** The text index on [foodName] ([createIndex({ foodName: "text" })])
    reads the [language] field of a document as the language to index it
    in: the storage refuses a document whose [language] is not a string or
    not one of the languages of its text search ([language_ok]). *)
Definition text_index_accepts (language_ok : string -> bool) (d : doc)
    : bool :=
  match d !! "language" with
  | None => true
  | Some (VStr s) => language_ok s
  | Some _ => false
  end.

(** The two collections. *)
Record db := { reviewCollection : list doc; favoritesCollection : list doc }.

(** ** HTTP responses *)

(** One entry of [errors.array()]. *)
Record verror := { field : string; message : string }.

#[global] Instance verror_eq_dec : EqDecision verror.
Proof. solve_decision. Defined.

(** The JSON bodies the handlers send. *)
Inductive payload :=
  | Reviews (l : list doc)                 (* { reviews: [...] } *)
  | DocArray (l : list doc)                (* [...] *)
  | Document (d : doc)                     (* {...} *)
  | Populated (l : list (doc * option doc))
      (* [{ ...fav, review }]: the favorite without its own [review]
         field, and the joined review, [None] for null *)
  | InsertResult (insertedId : value)      (* { acknowledged, insertedId } *)
  | Message (s : string)                   (* { message } *)
  | Errors (l : list verror)               (* { errors: [...] } *)
  | Text (s : string)                      (* res.send *)
  | ErrorPage.                             (* Express's own error handler *)

Record response := { status : Z; sent : payload }.

(** [{ ...r, rating: Number(r.rating) }]. *)
Definition with_rating (r : doc) : doc :=
  <["rating" := VNum (Number (r !! "rating"))]> r.

(** ** Validation (express-validator) *)

Inductive check :=
  | NotEmpty                     (* .notEmpty() *)
  | IsInt (min max : Z)          (* .isInt({ min, max }) *)
  | IsEmail.                     (* .isEmail() *)

(** [body(f)], with or without [.optional()], and its check. *)
Record rule := { r_field : string; r_optional : bool; r_check : check }.

(** The entry a violated rule contributes, with the library's message. *)
Definition error_of (r : rule) : verror :=
  {| field := r_field r; message := "Invalid value" |}.

(** The string a validator sees for a field ([None]: undefined). *)
Definition toString (v : option json) : string :=
  match v with
  | None | Some JNull => ""
  | Some (JBool b) => if b then "true" else "false"
  | Some (JNum z) => pretty z
  | Some (JStr s) => s
  end.

(** validator.js [isInt(str, { min, max })]: the pattern [[-+]?[0-9]+],
    and [str >= min && str <= max] on the number the string converts to. *)
Definition isInt (min max : Z) (s : string) : bool :=
  bool_decide (is_Some (Str.signed_digits (list_ascii_of_string s)))
  && match StringToNumber s with
     | Int z => (min <=? z) && (z <=? max)
     | NaN => false
     end.

Section Routes.

(** validator.js [isEmail], with its default options. *)
Variable isEmail : string -> bool.

(** The languages of the storage's text search, as a [language] field
    names them. *)
Variable language_ok : string -> bool.

(** The storage's regular expressions with [$options: "i"]: a pattern
    compiled to its matcher, [None] when it is not a regular expression. *)
Variable regex_i : string -> option (string -> bool).

Definition passes (c : check) (s : string) : bool :=
  match c with
  | NotEmpty => negb (String.eqb s "")
  | IsInt min max => isInt min max s
  | IsEmail => isEmail s
  end.

(** A rule is violated by a body when its field fails the check;
    an optional rule is skipped for an undefined field. *)
Definition violates (b : body) (r : rule) : bool :=
  match b !! r_field r with
  | None => if r_optional r then false
            else negb (passes (r_check r) (toString None))
  | Some j => negb (passes (r_check r) (toString (Some j)))
  end.

(** [validationResult(req).array()]: one entry per violated rule. *)
Definition validationResult (rules : list rule) (b : body) : list verror :=
  error_of <$> List.filter (violates b) rules.

(** [handleValidationErrors]: with errors, respond 400 and do not call
    [next]; otherwise run the handler. *)
Definition handleValidationErrors {S} (rules : list rule) (b : body)
    (next : S -> response * S) (st : S) : response * S :=
  match validationResult rules b with
  | [] => next st
  | errs => ({| status := 400; sent := Errors errs |}, st)
  end.

Definition required (f : string) (c : check) : rule :=
  {| r_field := f; r_optional := false; r_check := c |}.
Definition optional (f : string) (c : check) : rule :=
  {| r_field := f; r_optional := true; r_check := c |}.

Definition post_reviews_rules : list rule :=
  [ required "foodName" NotEmpty; required "foodImage" NotEmpty;
    required "restaurantName" NotEmpty; required "rating" (IsInt 0 5);
    required "userEmail" IsEmail ].

Definition put_reviews_rules : list rule :=
  [ optional "foodName" NotEmpty; optional "foodImage" NotEmpty;
    optional "restaurantName" NotEmpty; optional "rating" (IsInt 0 5) ].

Definition post_favorites_rules : list rule :=
  [ required "userEmail" IsEmail; required "reviewId" NotEmpty ].

(** ** The route handlers *)

Definition set_reviews (st : db) (c : list doc) : db :=
  {| reviewCollection := c; favoritesCollection := favoritesCollection st |}.

Definition set_favorites (st : db) (c : list doc) : db :=
  {| reviewCollection := reviewCollection st; favoritesCollection := c |}.

Definition by_id (o : N) : query := [("_id", Eq (VId o))].

(** The filter document [GET /reviews] builds from [req.query]: a
    parameter that is absent or the empty string is falsy. [None]: the
    storage refuses the search as a regular expression, which it does
    when it runs the query. *)
Definition reviews_query (userEmail search : option string) : option query :=
  let q := match userEmail with
           | Some e => if String.eqb e "" then []
                       else [("userEmail", Eq (VStr e))]
           | None => []
           end in
  match search with
  | Some s =>
      if negb (String.eqb s "") && negb (String.eqb (Str.trim s) "")
      then m ← regex_i s;
           Some (q ++ [("foodName", RegexI m)])%list
      else Some q
  | None => Some q
  end.

(** [GET /reviews] *)
Definition get_reviews (userEmail search : option string) (st : db)
    : response :=
  match reviews_query userEmail search with
  | Some q =>
      {| status := 200;
         sent := Reviews (with_rating <$>
                   sort_desc "date" (find q (reviewCollection st))) |}
  | None => {| status := 500; sent := Message "Failed to fetch reviews" |}
  end.

(** [GET /reviews/top] *)
Definition get_reviews_top (st : db) : response :=
  {| status := 200;
     sent := DocArray (with_rating <$>
               limit 6 (sort_desc "rating" (find [] (reviewCollection st)))) |}.

(** [GET /reviews/:id]. [new ObjectId] runs before the promise chain
    exists, so when it throws the chain's [catch] is not reached and
    Express's error handler answers 500. *)
Definition get_review (id : string) (st : db) : response :=
  match ObjectId id with
  | None => {| status := 500; sent := ErrorPage |}
  | Some o =>
      match findOne (by_id o) (reviewCollection st) with
      | None => {| status := 404; sent := Message "Review not found" |}
      | Some review => {| status := 200; sent := Document (with_rating review) |}
      end
  end.

(** [reviewCollection.insertOne(d)]: the text index has its say too. *)
Definition insert_review (d : doc) (c : list doc) : option (value * list doc) :=
  if text_index_accepts language_ok d then insertOne d c else None.

(** [POST /reviews] *)
Definition post_reviews (now : Z) (b : body) (st : db) : response * db :=
  handleValidationErrors post_reviews_rules b (fun st =>
    let review := <["date" := VDate now]> (of_json <$> b) in
    match insert_review review (reviewCollection st) with
    | Some (id, c) =>
        ({| status := 201; sent := InsertResult id |}, set_reviews st c)
    | None =>
        ({| status := 500; sent := Message "Failed to add review" |}, st)
    end) st.

(** [PUT /reviews/:id] *)
Definition put_review (id : string) (b : body) (st : db) : response * db :=
  handleValidationErrors put_reviews_rules b (fun st =>
    match ObjectId id with
    | None => ({| status := 500; sent := ErrorPage |}, st)
    | Some o =>
        match updateOne (text_index_accepts language_ok) o (of_json <$> b)
                (reviewCollection st) with
        | Some (matchedCount, c) =>
            if (matchedCount =? 0)%nat
            then ({| status := 404; sent := Message "Review not found" |},
                  set_reviews st c)
            else ({| status := 200;
                     sent := Message "Review updated successfully" |},
                  set_reviews st c)
        | None =>
            ({| status := 500; sent := Message "Failed to update review" |}, st)
        end
    end) st.

(** [DELETE /reviews/:id] *)
Definition delete_review (id : string) (st : db) : response * db :=
  match ObjectId id with
  | None => ({| status := 500; sent := ErrorPage |}, st)
  | Some o =>
      let '(deletedCount, c) := deleteOne o (reviewCollection st) in
      if (deletedCount =? 0)%nat
      then ({| status := 404; sent := Message "Review not found" |},
            set_reviews st c)
      else ({| status := 200; sent := Message "Review deleted" |},
            set_reviews st c)
  end.

(** [req.body.k] as the driver serialises it: undefined becomes null. *)
Definition body_field (b : body) (k : string) : value :=
  default VNull (of_json <$> b !! k).

(** [POST /favorites]. When the pair exists the 400 is sent; the value
    that step returns is [res] itself, so the next step tries to send it
    as a 201 body, which throws, and so does the [catch] step's own
    response, the headers being sent already (a rejection nothing
    handles): the 400 is what the client gets and no collection is
    touched. *)
Definition post_favorites (now : Z) (b : body) (st : db) : response * db :=
  handleValidationErrors post_favorites_rules b (fun st =>
    let userEmail := body_field b "userEmail" in
    let reviewId := body_field b "reviewId" in
    match findOne [("userEmail", Eq userEmail); ("reviewId", Eq reviewId)]
                  (favoritesCollection st) with
    | Some _ =>
        ({| status := 400; sent := Message "Already favorited" |}, st)
    | None =>
        let fav : doc := <["date" := VDate now]>
                   (<["reviewId" := reviewId]>
                      (<["userEmail" := userEmail]> ∅)) in
        match insertOne fav (favoritesCollection st) with
        | Some (id, c) =>
            ({| status := 201; sent := InsertResult id |}, set_favorites st c)
        | None =>
            ({| status := 500; sent := Message "Failed to add favorite" |}, st)
        end
    end) st.

(** [reviewCollection.findOne({ _id: new ObjectId(fav.reviewId) })].
    The outer [None]: [new ObjectId] throws (a string that is not 24 hex
    characters, a boolean, a date). A missing or null [reviewId] and a
    number make the constructor generate an identifier, which no stored
    review has. *)
Definition lookup_review (reviewId : option value) (reviews : list doc)
    : option (option doc) :=
  match reviewId with
  | Some (VStr s) => o ← ObjectId s; Some (findOne (by_id o) reviews)
  | Some (VId o) => Some (findOne (by_id o) reviews)
  | None | Some VNull | Some (VNum _) => Some None
  | Some (VBool _) | Some (VDate _) => None
  end.

(** [{ ...fav, review }] for one favorite. *)
Definition populate (reviews : list doc) (fav : doc)
    : option (doc * option doc) :=
  review ← lookup_review (fav !! "reviewId") reviews;
  Some (delete "review" fav, review).

(** [GET /favorites/:email]. [Promise.all] rejects as soon as one lookup
    throws, and the chain's [catch] answers 500. *)
Definition get_favorites (email : string) (st : db) : response :=
  let favorites := find [("userEmail", Eq (VStr email))] (favoritesCollection st) in
  match mapM (populate (reviewCollection st)) favorites with
  | Some populated => {| status := 200; sent := Populated populated |}
  | None => {| status := 500; sent := Message "Failed to fetch favorites" |}
  end.

(** [DELETE /favorites/:id] *)
Definition delete_favorite (id : string) (st : db) : response * db :=
  match ObjectId id with
  | None => ({| status := 500; sent := ErrorPage |}, st)
  | Some o =>
      let '(deletedCount, c) := deleteOne o (favoritesCollection st) in
      if (deletedCount =? 0)%nat
      then ({| status := 404; sent := Message "Favorite not found" |},
            set_favorites st c)
      else ({| status := 200; sent := Message "Favorite removed" |},
            set_favorites st c)
  end.

End Routes.

(** ** validator.js [isEmail] on ASCII addresses

    The library's algorithm with its default options, for addresses in
    ASCII with an unquoted local part (others are refused here): split at
    the last [@], bound the lengths, check the domain as a fully qualified
    domain name and each dot-separated part of the local part. The
    handlers above take the predicate as a parameter; this instance runs
    them on concrete requests. *)
Module Email.

(** [String.prototype.split] on one character. *)
Fixpoint split (sep : ascii) (l : list ascii) : list (list ascii) :=
  match l with
  | [] => [[]]
  | a :: l' =>
      if bool_decide (a = sep) then [] :: split sep l'
      else match split sep l' with
           | p :: ps => (a :: p) :: ps
           | [] => [[a]]
           end
  end.

(** [Array.prototype.join] on one character. *)
Fixpoint join (sep : ascii) (ps : list (list ascii)) : list ascii :=
  match ps with
  | [] => []
  | [p] => p
  | p :: ps' => (p ++ sep :: join sep ps')%list
  end.

Definition is_alpha (a : ascii) : bool :=
  let n := nat_of_ascii (Str.lower a) in (97 <=? n)%nat && (n <=? 122)%nat.

Definition user_char (a : ascii) : bool :=
  is_alpha a || Str.is_digit a
  || bool_decide (a ∈ list_ascii_of_string "!#$%&'*+-/=?^_`{|}~").

Definition label_char (a : ascii) : bool :=
  is_alpha a || Str.is_digit a || bool_decide (a = "-"%char).

Definition tld_ok (t : list ascii) : bool :=
  ((2 <=? length t)%nat && forallb is_alpha t)
  || match t with
     | x :: n :: t' =>
         bool_decide (Str.lower x = "x"%char)
         && bool_decide (Str.lower n = "n"%char)
         && (2 <=? length t')%nat && forallb label_char t'
     | _ => false
     end.

Definition label_ok (p : list ascii) : bool :=
  (1 <=? length p)%nat && (length p <=? 63)%nat && forallb label_char p
  && negb (bool_decide (head p = Some "-"%char))
  && negb (bool_decide (last p = Some "-"%char)).

Definition isFQDN (d : list ascii) : bool :=
  let parts := split "." d in
  (2 <=? length parts)%nat
  && tld_ok (default [] (last parts))
  && forallb label_ok parts.

Definition user_part_ok (p : list ascii) : bool :=
  (1 <=? length p)%nat && forallb user_char p.

Definition isEmail (s : string) : bool :=
  let parts := split "@" (list_ascii_of_string s) in
  let domain := default [] (last parts) in
  let user := join "@" (take (length parts - 1) parts) in
  (length user <=? 64)%nat && (length domain <=? 254)%nat
  && isFQDN domain
  && forallb user_part_ok (split "." user).

End Email.


(** ** The languages of the text search

    The languages MongoDB's text search supports, by name and by
    two-letter code, and ["none"]. *)
Module Text.

Definition languages : list string :=
  [ "none"; "danish"; "da"; "dutch"; "nl"; "english"; "en"; "finnish"; "fi";
    "french"; "fr"; "german"; "de"; "hungarian"; "hu"; "italian"; "it";
    "norwegian"; "nb"; "portuguese"; "pt"; "romanian"; "ro"; "russian"; "ru";
    "spanish"; "es"; "swedish"; "sv"; "turkish"; "tr" ].

(** A name is looked up without regard to the case of its letters. *)
Definition language_ok (s : string) : bool :=
  bool_decide
    (string_of_list_ascii (Str.lower <$> list_ascii_of_string s) ∈ languages).

End Text.

(** ** Requests *)

(** The routes registered on [app], with the inputs each handler reads. *)
Inductive request :=
  | GetReviews (userEmail search : option string)
  | GetReviewsTop
  | GetReview (id : string)
  | PostReviews (b : body)
  | PutReview (id : string) (b : body)
  | DeleteReview (id : string)
  | PostFavorites (b : body)
  | GetFavorites (email : string)
  | DeleteFavorite (id : string)
  | GetRoot.

(** The validation chain a route declares. *)
Definition rules_of (r : request) : list rule :=
  match r with
  | PostReviews _ => post_reviews_rules
  | PutReview _ _ => put_reviews_rules
  | PostFavorites _ => post_favorites_rules
  | _ => []
  end.

Definition body_of (r : request) : body :=
  match r with
  | PostReviews b | PutReview _ b | PostFavorites b => b
  | _ => ∅
  end.

(** One request served at server time [now]: the answer and the state
    after it. Every request is answered, so the result is never [None]. *)
Definition serve (isEmail language_ok : string -> bool)
    (regex_i : string -> option (string -> bool))
    (now : Z) (r : request) (st : db) : option (response * db) :=
  match r with
  | GetReviews userEmail search =>
      Some (get_reviews regex_i userEmail search st, st)
  | GetReviewsTop => Some (get_reviews_top st, st)
  | GetReview id => Some (get_review id st, st)
  | PostReviews b => Some (post_reviews isEmail language_ok now b st)
  | PutReview id b => Some (put_review isEmail language_ok id b st)
  | DeleteReview id => Some (delete_review id st)
  | PostFavorites b => Some (post_favorites isEmail now b st)
  | GetFavorites email => Some (get_favorites email st, st)
  | DeleteFavorite id => Some (delete_favorite id st)
  | GetRoot => Some ({| status := 200; sent := Text "API running..." |}, st)
  end.

(** ** Sample data *)

Definition empty_db : db := {| reviewCollection := []; favoritesCollection := [] |}.

(** The review of the specification's example, with a given rating. *)
Definition taco (rating : json) : body :=
  <["foodName" := JStr "Taco"]> (<["foodImage" := JStr "x.png"]>
  (<["restaurantName" := JStr "Joe's"]> (<["rating" := rating]>
  (<["userEmail" := JStr "a@b.com"]> ∅)))).

Definition favorite (reviewId : string) : body :=
  <["userEmail" := JStr "a@b.com"]> (<["reviewId" := JStr reviewId]> ∅).

(** ** Notions the properties are stated with *)

(** The filter [POST /favorites] looks a pair up with. *)
Definition pair_query (userEmail reviewId : value) : query :=
  [("userEmail", Eq userEmail); ("reviewId", Eq reviewId)].

(** How many favorites a collection holds for a pair. *)
Definition pair_count (userEmail reviewId : value) (c : list doc) : nat :=
  length (find (pair_query userEmail reviewId) c).

(** The document [POST /favorites] hands to [insertOne]. *)
Definition favorite_doc (userEmail reviewId : value) (now : Z) : doc :=
  <["date" := VDate now]>
    (<["reviewId" := reviewId]> (<["userEmail" := userEmail]> ∅)).

(** A field that holds a number, one that JSON can carry (not [NaN]). *)
Definition is_number (v : option value) : Prop :=
  ∃ z, v = Some (VNum (Int z)).

(** One review, a favorite of it, and a favorite whose [reviewId] is not
    an identifier, all created through the routes. *)
Definition one_review : db :=
  (post_reviews Email.isEmail Text.language_ok 100 (taco (JNum 4)) empty_db).2.

Definition two_favorites : db :=
  (post_favorites Email.isEmail 300 (favorite "bad")
     (post_favorites Email.isEmail 200 (favorite "000000000000000000000001")
        one_review).2).2.

(** A favorite of a review that is not, or no longer, stored. *)
Definition orphan_favorite : db :=
  (post_favorites Email.isEmail 200 (favorite "000000000000000000000002")
     one_review).2.

(** The document [POST /reviews] hands to [insertOne]:
    [{ ...req.body, date: new Date() }]. *)
Definition review_doc (b : body) (now : Z) : doc :=
  <["date" := VDate now]> (of_json <$> b).

(** The identifier [insertOne] stores a document under. *)
Definition id_for (d : doc) (c : list doc) : value :=
  match d !! "_id" with
  | None | Some VNull => VId (fresh_oid c)
  | Some v => v
  end.

(** Case-insensitive substring, the way the specification words the
    search: the lower-cased text contains the lower-cased needle. *)
Definition substring_i (needle hay : string) : Prop :=
  ∃ pre post : list ascii,
    Str.lower <$> list_ascii_of_string hay
    = (pre ++ (Str.lower <$> list_ascii_of_string needle) ++ post)%list.

(** The filters of [GET /reviews] as predicates on a review. *)
Definition email_filter (userEmail : option string) (d : doc) : bool :=
  match userEmail with
  | Some e => String.eqb e "" || bool_decide (d !! "userEmail" = Some (VStr e))
  | None => true
  end.

(** The search applies unless it is absent, empty or all white space. *)
Definition search_active (search : option string) : bool :=
  match search with
  | Some s => negb (String.eqb s "") && negb (String.eqb (Str.trim s) "")
  | None => false
  end.

(** [m] is the matcher the storage compiles the search to. *)
Definition search_filter (search : option string) (m : string -> bool)
    (d : doc) : bool :=
  if search_active search then
    match d !! "foodName" with
    | Some (VStr n) => m n
    | _ => false
    end
  else true.

(** [a <= b] on JS numbers; every comparison with [NaN] is false. *)
Definition number_le (a b : number) : Prop :=
  match a, b with
  | Int x, Int y => x <= y
  | _, _ => False
  end.

(** The ratings of an answer never increase along it. *)
Definition non_increasing (l : list doc) : Prop :=
  Sorted (λ d1 d2 : doc,
            number_le (Number (d2 !! "rating")) (Number (d1 !! "rating"))) l.

(** Two reviews created through [POST /reviews], the first with its rating
    as the string ["1"], the second with the number 5. *)
Definition mixed_ratings : db :=
  (post_reviews Email.isEmail Text.language_ok 200 (taco (JNum 5))
     (post_reviews Email.isEmail Text.language_ok 100 (taco (JStr "1"))
        empty_db).2).2.

(** Requests served one after another, each at its own server time. *)
Fixpoint run (isEmail language_ok : string -> bool)
    (regex_i : string -> option (string -> bool))
    (reqs : list (Z * request)) (st : db) : option db :=
  match reqs with
  | [] => Some st
  | (now, r) :: reqs' =>
      out ← serve isEmail language_ok regex_i now r st;
      run isEmail language_ok regex_i reqs' out.2
  end.

(** No pair is favorited more than once. *)
Definition unique_pairs (c : list doc) : Prop :=
  ∀ e r, (pair_count e r c <= 1)%nat.

(** The identifiers of a collection, in storage order. *)
Definition ids (c : list doc) : list (option value) :=
  (λ d : doc, d !! "_id") <$> c.

(** No two documents of a collection share an identifier. *)
Definition ids_unique (c : list doc) : Prop := NoDup (ids c).

(** A review whose rating reads as an integer between 0 and 5. *)
Definition rating_in_range (d : doc) : Prop :=
  ∃ z, Number (d !! "rating") = Int z ∧ 0 <= z <= 5.

(** ** The async/await variant of the review routes

    The same routes written with [async] handlers and [try]/[catch]
    (the file without the favorites routes): [new ObjectId] runs inside
    the [try], so a malformed identifier is answered by the handler's own
    [catch]. The list, top and create handlers do what the ones above
    do. *)
Module Async.

Definition get_review (id : string) (st : db) : response :=
  match ObjectId id with
  | None => {| status := 500; sent := Message "Failed to fetch review" |}
  | Some o =>
      match findOne (by_id o) (reviewCollection st) with
      | None => {| status := 404; sent := Message "Review not found" |}
      | Some review => {| status := 200; sent := Document (with_rating review) |}
      end
  end.

Definition put_review (isEmail language_ok : string -> bool) (id : string)
    (b : body) (st : db) : response * db :=
  handleValidationErrors isEmail put_reviews_rules b (fun st =>
    match o ← ObjectId id;
          updateOne (text_index_accepts language_ok) o (of_json <$> b)
            (reviewCollection st) with
    | Some (matchedCount, c) =>
        if (matchedCount =? 0)%nat
        then ({| status := 404; sent := Message "Review not found" |},
              set_reviews st c)
        else ({| status := 200;
                 sent := Message "Review updated successfully" |},
              set_reviews st c)
    | None =>
        ({| status := 500; sent := Message "Failed to update review" |}, st)
    end) st.

Definition delete_review (id : string) (st : db) : response * db :=
  match ObjectId id with
  | None => ({| status := 500; sent := Message "Failed to delete review" |}, st)
  | Some o =>
      let '(deletedCount, c) := deleteOne o (reviewCollection st) in
      if (deletedCount =? 0)%nat
      then ({| status := 404; sent := Message "Review not found" |},
            set_reviews st c)
      else ({| status := 200; sent := Message "Review deleted" |},
            set_reviews st c)
  end.

End Async.

(** A plain field name: not empty, no dot, no NUL character and no leading
    dollar sign. The storage reads a dotted name as a path into embedded
    documents and a dollar sign as an operator, and BSON cannot carry a NUL
    in a name; the properties of the writes are stated for bodies whose
    field names are plain. *)
Definition plain_key (k : string) : bool :=
  negb (String.eqb k "")
  && negb (dollar_key k)
  && forallb
       (fun a : ascii => negb (Ascii.eqb a ".") && negb (Ascii.eqb a "000"))
       (list_ascii_of_string k).

Definition plain_body (b : body) : Prop :=
  map_Forall (fun k _ => plain_key k = true) b.

(** A review whose [rating] is an integer between 0 and 5 of the number
    type. *)
Definition integer_rating (d : doc) : Prop :=
  ∃ z, d !! "rating" = Some (VNum (Int z)) ∧ 0 <= z <= 5.

(** The white space of ECMAScript (WhiteSpace and LineTerminator) as code
    points: U+0009 to U+000D, U+0020, U+00A0, U+1680, U+2000 to U+200A,
    U+2028, U+2029, U+202F, U+205F, U+3000 and U+FEFF. *)
Definition white_space : list N :=
  [9; 10; 11; 12; 13; 32; 160; 5760; 8192; 8193; 8194; 8195; 8196; 8197;
   8198; 8199; 8200; 8201; 8202; 8232; 8233; 8239; 8287; 12288; 65279]%N.

(** The UTF-8 bytes of a code point below [2^16]. *)
Definition utf8 (cp : N) : list ascii :=
  if (cp <? 128)%N then [ascii_of_N cp]
  else if (cp <? 2048)%N then
    [ascii_of_N (192 + cp / 64); ascii_of_N (128 + cp mod 64)]
  else
    [ascii_of_N (224 + cp / 4096); ascii_of_N (128 + (cp / 64) mod 64);
     ascii_of_N (128 + cp mod 64)].

(** A text that is made of white space only; the empty text is one. *)
Definition blank (s : string) : Prop :=
  ∃ cps : list N,
    Forall (fun cp => cp ∈ white_space) cps
    ∧ list_ascii_of_string s = concat (utf8 <$> cps).

(** * Properties *)

(** ** The scalars *)

Example Number_string : Number (Some (VStr " 4 ")) = Int 4.
Proof. reflexivity. Qed.
Example Number_word : Number (Some (VStr "four")) = NaN.
Proof. reflexivity. Qed.
Example ObjectId_ok : ObjectId "0000000000000000000000fF" = Some 255%N.
Proof. reflexivity. Qed.
Example ObjectId_short : ObjectId "abc" = None.
Proof. reflexivity. Qed.
Example toHexString_255 : toHexString 255 = "0000000000000000000000ff".
Proof. reflexivity. Qed.
Example isEmail_plain : Email.isEmail "a@b.com" = true.
Proof. reflexivity. Qed.
Example isEmail_no_at : Email.isEmail "b.com" = false.
Proof. reflexivity. Qed.
Example isEmail_no_tld : Email.isEmail "a@b" = false.
Proof. reflexivity. Qed.
Example isEmail_dots : Email.isEmail "a..c@b.com" = false.
Proof. reflexivity. Qed.
Example isEmail_two_at : Email.isEmail "a@c@b.co" = false.
Proof. reflexivity. Qed.

(** ** The storage layer *)

Lemma bson_leb_total (a b : value) : bson_leb a b = true ∨ bson_leb b a = true.
Proof.
  destruct a as [| x | [x|] | s | x | x], b as [| y | [y|] | t | y | y];
    simpl; auto.
  - destruct x, y; auto.
  - destruct (Z.leb_spec x y); [auto | right; apply Z.leb_le; lia].
  - apply String.leb_total.
  - destruct (Z.leb_spec x y); [auto | right; apply Z.leb_le; lia].
  - destruct (N.leb_spec x y); [auto | right; apply N.leb_le; lia].
Qed.

#[global] Instance desc_by_total k : Total (desc_by k).
Proof. intros d1 d2. unfold desc_by. apply bson_leb_total. Qed.

Lemma sort_desc_Sorted k c : Sorted (desc_by k) (sort_desc k c).
Proof. apply (Sorted_merge_sort (desc_by k)). Qed.

Lemma sort_desc_Permutation k c : sort_desc k c ≡ₚ c.
Proof. apply (merge_sort_Permutation (desc_by k)). Qed.

Lemma limit_length n c : (length (limit n c) <= n)%nat.
Proof. unfold limit. rewrite length_take. lia. Qed.

Lemma find_all c : find [] c = c.
Proof.
  unfold find. induction c as [| d c IH]; simpl; [done |]. by rewrite IH.
Qed.

Lemma elem_of_find q c d : d ∈ find q c ↔ d ∈ c ∧ matches q d = true.
Proof.
  unfold find. rewrite !list_elem_of_In, filter_In. done.
Qed.

Lemma findOne_Some q c d :
  findOne q c = Some d → d ∈ c ∧ matches q d = true.
Proof.
  unfold findOne. intros H. apply elem_of_find.
  destruct (find q c) as [| e l]; simplify_eq/=. left.
Qed.

Lemma findOne_None q c :
  findOne q c = None ↔ ∀ d, d ∈ c → matches q d = false.
Proof.
  unfold findOne. split.
  - intros H d Hd. destruct (matches q d) eqn:E; [| done].
    assert (Hin : d ∈ find q c) by (by apply elem_of_find).
    destruct (find q c); [by apply elem_of_nil in Hin | done].
  - intros H. destruct (find q c) as [| e l] eqn:E; [done |].
    assert (Hin : e ∈ find q c) by (rewrite E; left).
    apply elem_of_find in Hin as [Hin Hm]. rewrite (H e Hin) in Hm. done.
Qed.

Lemma matches_by_id o d :
  matches (by_id o) d = true ↔ d !! "_id" = Some (VId o).
Proof.
  unfold matches, by_id. simpl. rewrite andb_true_r.
  destruct (d !! "_id") as [v |] eqn:E; simpl.
  - rewrite bool_decide_eq_true. split; congruence.
  - split; intros; discriminate.
Qed.

Lemma max_oid_ge c d o :
  d ∈ c → d !! "_id" = Some (VId o) → (o <= max_oid c)%N.
Proof.
  induction c as [| e c IH]; intros Hin Hid.
  - by apply elem_of_nil in Hin.
  - apply elem_of_cons in Hin as [-> | Hin]; simpl.
    + rewrite Hid. lia.
    + specialize (IH Hin Hid).
      destruct (e !! "_id") as [[] |]; lia.
Qed.

Lemma fresh_oid_unused c d :
  d ∈ c → d !! "_id" ≠ Some (VId (fresh_oid c)).
Proof.
  intros Hin Hid. pose proof (max_oid_ge _ _ _ Hin Hid) as H.
  unfold fresh_oid in H. lia.
Qed.

Lemma existsb_id_false (c : list doc) (id : value) :
  List.existsb (fun e : doc => bool_decide (e !! "_id" = Some id)) c = false
  ↔ ∀ d, d ∈ c → d !! "_id" ≠ Some id.
Proof.
  induction c as [| e c IH]; simpl.
  - split; [intros _ d Hd; by apply elem_of_nil in Hd | done].
  - rewrite orb_false_iff, IH, bool_decide_eq_false. split.
    + intros [He Hc] d Hd. apply elem_of_cons in Hd as [-> | Hd]; auto.
    + intros H. split; [apply H; left | intros d Hd; apply H; by right].
Qed.

(** A document without an identifier is always accepted, under a
    generated one. *)
Lemma insertOne_generated (d : doc) c :
  d !! "_id" = None →
  insertOne d c =
    Some (VId (fresh_oid c), (c ++ [<["_id" := VId (fresh_oid c)]> d])%list).
Proof.
  intros Hd. unfold insertOne. rewrite Hd.
  assert (H : List.existsb
    (fun e : doc => bool_decide (e !! "_id" = Some (VId (fresh_oid c)))) c = false).
  { apply existsb_id_false. intros e He. by apply fresh_oid_unused. }
  by rewrite H.
Qed.

(** ** Validation *)

Lemma elem_of_validationResult isEmail rules b e :
  e ∈ validationResult isEmail rules b ↔
  ∃ r, r ∈ rules ∧ violates isEmail b r = true ∧ e = error_of r.
Proof.
  unfold validationResult. rewrite list_elem_of_fmap. split.
  - intros (r & -> & Hr). exists r.
    apply list_elem_of_In, filter_In in Hr as [Hr Hv].
    by rewrite list_elem_of_In.
  - intros (r & Hr & Hv & ->). exists r. split; [done |].
    apply list_elem_of_In, filter_In. by rewrite <- list_elem_of_In.
Qed.

Lemma validationResult_nil isEmail rules b :
  validationResult isEmail rules b = [] ↔
  ∀ r, r ∈ rules → violates isEmail b r = false.
Proof.
  split.
  - intros H r Hr. destruct (violates isEmail b r) eqn:E; [| done].
    assert (He : error_of r ∈ validationResult isEmail rules b)
      by (apply elem_of_validationResult; eauto).
    rewrite H in He. by apply elem_of_nil in He.
  - intros H. destruct (validationResult isEmail rules b) as [| e l] eqn:E; [done |].
    assert (He : e ∈ validationResult isEmail rules b) by (rewrite E; left).
    apply elem_of_validationResult in He as (r & Hr & Hv & _).
    rewrite (H r Hr) in Hv. done.
Qed.

(** With a violated rule the chain stops at [handleValidationErrors],
    whatever handler follows it. *)
Lemma handleValidationErrors_rejects {S} isEmail rules b
    (next : S → response * S) (st : S) r :
  r ∈ rules → violates isEmail b r = true →
  handleValidationErrors isEmail rules b next st =
    ({| status := 400; sent := Errors (validationResult isEmail rules b) |}, st).
Proof.
  intros Hr Hv. unfold handleValidationErrors.
  destruct (validationResult isEmail rules b) as [| e l] eqn:E; [| done].
  rewrite (proj1 (validationResult_nil isEmail rules b) E r Hr) in Hv. done.
Qed.

Lemma handleValidationErrors_passes {S} isEmail rules b
    (next : S → response * S) (st : S) :
  validationResult isEmail rules b = [] →
  handleValidationErrors isEmail rules b next st = next st.
Proof. intros H. unfold handleValidationErrors. by rewrite H. Qed.

(** C9. On each route that declares field constraints, a body violating
    one of the declared rules is answered 400 with the list of
    [{field, message}] entries of the violated rules; the handler behind
    the validation step is not run (the answer is the same for every
    handler) and the stored state is unchanged. *)
Theorem validation_failure_is_400 isEmail language_ok regex_i now
    (req : request) (st : db) (r : rule) :
  r ∈ rules_of req → violates isEmail (body_of req) r = true →
  ∃ errs,
    serve isEmail language_ok regex_i now req st =
      Some ({| status := 400; sent := Errors errs |}, st)
    ∧ error_of r ∈ errs
    ∧ (∀ e, e ∈ errs →
         ∃ r', r' ∈ rules_of req ∧ violates isEmail (body_of req) r' = true
               ∧ e = error_of r')
    ∧ (∀ (next : db → response * db) (s : db),
         handleValidationErrors isEmail (rules_of req) (body_of req) next s =
           ({| status := 400; sent := Errors errs |}, s)).
Proof.
  intros Hr Hv.
  exists (validationResult isEmail (rules_of req) (body_of req)).
  split; [| split; [| split]].
  - destruct req; simpl in Hr; try (by apply elem_of_nil in Hr); simpl;
      f_equal; [unfold post_reviews | unfold put_review | unfold post_favorites];
      by apply handleValidationErrors_rejects with r.
  - apply elem_of_validationResult; eauto.
  - intros e He. by apply elem_of_validationResult.
  - intros next s. by apply handleValidationErrors_rejects with r.
Qed.

Lemma validation_failure_is_400_witness :
  ∃ errs,
    serve Email.isEmail Text.language_ok Regex.compile 100
      (PostReviews (taco (JStr "x"))) empty_db =
      Some ({| status := 400; sent := Errors errs |}, empty_db)
    ∧ error_of (required "rating" (IsInt 0 5)) ∈ errs.
Proof.
  destruct (validation_failure_is_400 Email.isEmail Text.language_ok
              Regex.compile 100
              (PostReviews (taco (JStr "x"))) empty_db
              (required "rating" (IsInt 0 5)))
    as (errs & H1 & H2 & _).
  - simpl. unfold post_reviews_rules. do 3 right. left.
  - vm_compute. reflexivity.
  - exists errs. split; assumption.
Defined.

(** ** Favorites *)

Lemma find_snoc q c d :
  find q (c ++ [d])%list = (find q c ++ (if matches q d then [d] else []))%list.
Proof.
  unfold find. rewrite List.filter_app. simpl. by destruct (matches q d).
Qed.

Lemma pair_count_findOne e r c :
  match findOne (pair_query e r) c with
  | Some _ => (0 < pair_count e r c)%nat
  | None => pair_count e r c = 0%nat
  end.
Proof.
  unfold findOne, pair_count.
  destruct (find (pair_query e r) c); simpl; [done | lia].
Qed.

(** The favorite stored for a pair matches the query of that pair only. *)
Lemma matches_favorite_doc e r e' r' id now :
  matches (pair_query e' r') (<["_id" := id]> (favorite_doc e r now))
  = bool_decide (e = e' ∧ r = r').
Proof.
  unfold matches, pair_query, favorite_doc. simpl.
  repeat first [rewrite lookup_insert_eq | rewrite lookup_insert_ne by done].
  simpl. rewrite andb_true_r.
  destruct (decide (e = e')) as [-> | He], (decide (r = r')) as [-> | Hr];
    rewrite ?bool_decide_eq_true_2, ?bool_decide_eq_false_2 by tauto;
    simpl; try done.
  all: symmetry; apply bool_decide_eq_false_2; tauto.
Qed.

Lemma pair_count_snoc e r e' r' id now c :
  pair_count e' r' (c ++ [<["_id" := id]> (favorite_doc e r now)])%list
  = (pair_count e' r' c + (if bool_decide (e = e' ∧ r = r') then 1 else 0))%nat.
Proof.
  unfold pair_count. rewrite find_snoc, length_app, matches_favorite_doc.
  by destruct (bool_decide (e = e' ∧ r = r')).
Qed.

(** What [POST /favorites] does behind a passed validation. *)
Lemma post_favorites_validated isEmail now b st :
  validationResult isEmail post_favorites_rules b = [] →
  let e := body_field b "userEmail" in
  let r := body_field b "reviewId" in
  let favs := favoritesCollection st in
  post_favorites isEmail now b st =
    match findOne (pair_query e r) favs with
    | Some _ => ({| status := 400; sent := Message "Already favorited" |}, st)
    | None =>
        ({| status := 201; sent := InsertResult (VId (fresh_oid favs)) |},
         set_favorites st
           (favs ++ [<["_id" := VId (fresh_oid favs)]> (favorite_doc e r now)])%list)
    end.
Proof.
  intros Hv e r favs. unfold post_favorites.
  rewrite handleValidationErrors_passes by done.
  fold e r favs. change [("userEmail", Eq e); ("reviewId", Eq r)] with (pair_query e r).
  destruct (findOne (pair_query e r) favs); [done |].
  change (<["date" := VDate now]> (<["reviewId" := r]> (<["userEmail" := e]> ∅)))
    with (favorite_doc e r now).
  rewrite insertOne_generated; [done |].
  unfold favorite_doc. by rewrite !lookup_insert_ne, lookup_empty.
Qed.

(** For a validated body whose [userEmail] and [reviewId] are JSON
    scalars, which the storage compares as values. With the pair present,
    [POST /favorites] answers 400 "Already favorited" and changes nothing;
    with the pair absent it appends exactly one favorite for it, stamped
    with the server time. So no pair's count grows beyond 1, and the same
    request sent again, at any later time, is answered 400 with the count
    still 1. (An object in [reviewId] is read by [findOne] as query
    operators; such a body is not a [body] of this development.) *)
Theorem post_favorites_at_most_once isEmail now now' b st :
  validationResult isEmail post_favorites_rules b = [] →
  let e := body_field b "userEmail" in
  let r := body_field b "reviewId" in
  let favs := favoritesCollection st in
  let out := post_favorites isEmail now b st in
  ((0 < pair_count e r favs)%nat →
     out = ({| status := 400; sent := Message "Already favorited" |}, st))
  ∧ (pair_count e r favs = 0%nat →
       out = ({| status := 201; sent := InsertResult (VId (fresh_oid favs)) |},
              set_favorites st
                (favs ++ [<["_id" := VId (fresh_oid favs)]>
                            (favorite_doc e r now)])%list)
       ∧ pair_count e r (favoritesCollection out.2) = 1%nat)
  ∧ (∀ e' r', (pair_count e' r' favs <= 1)%nat →
              (pair_count e' r' (favoritesCollection out.2) <= 1)%nat)
  ∧ post_favorites isEmail now' b out.2 =
      ({| status := 400; sent := Message "Already favorited" |}, out.2)
  ∧ ((pair_count e r favs <= 1)%nat →
       pair_count e r (favoritesCollection (post_favorites isEmail now' b out.2).2)
       = 1%nat).
Proof.
  intros Hv e r favs out.
  pose proof (post_favorites_validated isEmail now b st Hv) as Hout.
  simpl in Hout. fold e r favs out in Hout.
  pose proof (pair_count_findOne e r favs) as Hc.
  assert (Hagain : ∀ st', (0 < pair_count e r (favoritesCollection st'))%nat →
            post_favorites isEmail now' b st' =
            ({| status := 400; sent := Message "Already favorited" |}, st')).
  { intros st' Hpos.
    rewrite (post_favorites_validated isEmail now' b st' Hv). fold e r.
    pose proof (pair_count_findOne e r (favoritesCollection st')) as Hc'.
    destruct (findOne (pair_query e r) (favoritesCollection st')); [done | lia]. }
  assert (Hafter : (pair_count e r favs <= 1)%nat →
            pair_count e r (favoritesCollection out.2) = 1%nat
            ∧ (0 < pair_count e r (favoritesCollection out.2))%nat).
  { intros Hle. rewrite Hout.
    destruct (findOne (pair_query e r) favs); simpl.
    - fold favs. lia.
    - rewrite pair_count_snoc, bool_decide_eq_true_2 by done. lia. }
  assert (Hpos : (0 < pair_count e r (favoritesCollection out.2))%nat).
  { rewrite Hout. destruct (findOne (pair_query e r) favs); simpl.
    - by fold favs.
    - rewrite pair_count_snoc, bool_decide_eq_true_2 by done. lia. }
  split; [| split; [| split; [| split]]].
  - intros Hp. rewrite Hout.
    destruct (findOne (pair_query e r) favs); [done | lia].
  - intros Hz. rewrite Hout.
    destruct (findOne (pair_query e r) favs); [lia |]. split; [done |].
    simpl. rewrite pair_count_snoc, bool_decide_eq_true_2 by done. lia.
  - intros e' r' Hle. rewrite Hout.
    destruct (findOne (pair_query e r) favs); simpl; [by fold favs |].
    rewrite pair_count_snoc. case_bool_decide as Heq; [| lia].
    destruct Heq as [<- <-]. lia.
  - by apply Hagain.
  - intros Hle. rewrite (Hagain _ Hpos). simpl. by apply Hafter.
Qed.

Lemma post_favorites_at_most_once_witness :
  let st1 := (post_favorites Email.isEmail 100 (favorite "r1") empty_db).2 in
  post_favorites Email.isEmail 200 (favorite "r1") st1 =
    ({| status := 400; sent := Message "Already favorited" |}, st1)
  ∧ pair_count (VStr "a@b.com") (VStr "r1") (favoritesCollection st1) = 1%nat.
Proof.
  destruct (post_favorites_at_most_once Email.isEmail 100 200
              (favorite "r1") empty_db)
    as (_ & Hnew & _ & Hagain & _).
  - vm_compute. reflexivity.
  - split; [exact Hagain |]. apply Hnew. vm_compute. reflexivity.
Defined.

Lemma validated_reviewId isEmail b :
  validationResult isEmail post_favorites_rules b = [] →
  is_Some (b !! "reviewId").
Proof.
  intros Hv.
  pose proof (proj1 (validationResult_nil _ _ _) Hv
                (required "reviewId" NotEmpty)) as H.
  unfold violates in H. simpl in H.
  destruct (b !! "reviewId") as [j |] eqn:E; [by eexists |].
  discriminate H. unfold post_favorites_rules. set_solver.
Qed.

(** C10. A valid [POST /favorites] for a new pair stores the document
    built from [userEmail], [reviewId] and the server's [date] alone, under
    the identifier the storage assigns: no other field of the body reaches
    the stored favorite. *)
Theorem post_favorites_discards_extras isEmail now b st :
  validationResult isEmail post_favorites_rules b = [] →
  let e := body_field b "userEmail" in
  let r := body_field b "reviewId" in
  let favs := favoritesCollection st in
  pair_count e r favs = 0%nat →
  ∃ fav : doc,
    favoritesCollection (post_favorites isEmail now b st).2 = (favs ++ [fav])%list
    ∧ fav = <["_id" := VId (fresh_oid favs)]> (favorite_doc e r now)
    ∧ dom (favorite_doc e r now) = ({["userEmail"; "reviewId"; "date"]} : gset string)
    ∧ fav !! "userEmail" = Some e
    ∧ fav !! "reviewId" = of_json <$> b !! "reviewId"
    ∧ fav !! "date" = Some (VDate now)
    ∧ (∀ k, k ∉ ["_id"; "userEmail"; "reviewId"; "date"] → fav !! k = None).
Proof.
  intros Hv e r favs Hz.
  exists (<["_id" := VId (fresh_oid favs)]> (favorite_doc e r now)).
  pose proof (post_favorites_validated isEmail now b st Hv) as Hout.
  simpl in Hout. fold e r favs in Hout.
  pose proof (pair_count_findOne e r favs) as Hc.
  destruct (findOne (pair_query e r) favs); [lia |].
  rewrite Hout. simpl. split; [done |]. split; [done |].
  unfold favorite_doc.
  split; [| split; [| split; [| split]]].
  - rewrite !dom_insert_L, dom_empty_L. set_solver.
  - by repeat first [rewrite lookup_insert_eq | rewrite lookup_insert_ne by done].
  - repeat first [rewrite lookup_insert_eq | rewrite lookup_insert_ne by done].
    destruct (validated_reviewId isEmail b Hv) as (j & Hj).
    unfold r, body_field. by rewrite Hj.
  - by repeat first [rewrite lookup_insert_eq | rewrite lookup_insert_ne by done].
  - intros k Hk.
    rewrite !lookup_insert_ne, lookup_empty; [done | | | |];
      intros <-; apply Hk; set_solver.
Qed.

Lemma post_favorites_discards_extras_witness :
  ∃ fav : doc,
    favoritesCollection
      (post_favorites Email.isEmail 100
         (<["note" := JStr "yum"]> (favorite "r1")) empty_db).2 = [fav]
    ∧ fav !! "note" = None
    ∧ fav !! "reviewId" = Some (VStr "r1").
Proof.
  destruct (post_favorites_discards_extras Email.isEmail 100
              (<["note" := JStr "yum"]> (favorite "r1")) empty_db)
    as (fav & Hc & _ & _ & _ & Hr & _ & Hk).
  - vm_compute. reflexivity.
  - vm_compute. reflexivity.
  - exists fav. split; [exact Hc |]. split.
    + apply Hk. intros Hin.
      repeat (apply elem_of_cons in Hin as [Hin | Hin]; [discriminate |]).
      by apply elem_of_nil in Hin.
    + rewrite Hr. vm_compute. reflexivity.
Defined.

(** *** One request after another *)

Lemma serve_total isEmail language_ok regex_i now req st :
  is_Some (serve isEmail language_ok regex_i now req st).
Proof. by destruct req. Qed.

(** Every list of requests runs to its end. *)
Lemma run_total isEmail language_ok regex_i reqs st :
  is_Some (run isEmail language_ok regex_i reqs st).
Proof.
  revert st. induction reqs as [| [now req] reqs IH]; intros st; simpl.
  - done.
  - destruct (serve_total isEmail language_ok regex_i now req st) as [out ->].
    apply IH.
Qed.

Lemma post_favorites_unique isEmail now b st :
  unique_pairs (favoritesCollection st) →
  unique_pairs (favoritesCollection (post_favorites isEmail now b st).2).
Proof.
  intros Hu.
  destruct (validationResult isEmail post_favorites_rules b) as [| v vs] eqn:Hv.
  - rewrite (post_favorites_validated isEmail now b st Hv).
    set (e := body_field b "userEmail"). set (r := body_field b "reviewId").
    pose proof (pair_count_findOne e r (favoritesCollection st)) as Hc.
    destruct (findOne (pair_query e r) (favoritesCollection st)); [done |].
    simpl. intros e' r'. rewrite pair_count_snoc.
    case_bool_decide as Heq; [| rewrite Nat.add_0_r; apply Hu].
    destruct Heq as [<- <-]. lia.
  - unfold post_favorites, handleValidationErrors. by rewrite Hv.
Qed.

Lemma filter_deleteOne (f : doc → bool) o c :
  (length (List.filter f (deleteOne o c).2) <= length (List.filter f c))%nat.
Proof.
  induction c as [| d c IH]; simpl; [done |].
  case_bool_decide; simpl.
  - destruct (f d); simpl; lia.
  - destruct (deleteOne o c) as [n c'] eqn:E. simpl in *.
    destruct (f d); simpl; lia.
Qed.

Lemma pair_count_deleteOne e r o c :
  (pair_count e r (deleteOne o c).2 <= pair_count e r c)%nat.
Proof. apply filter_deleteOne. Qed.

Lemma delete_favorite_unique id st :
  unique_pairs (favoritesCollection st) →
  unique_pairs (favoritesCollection (delete_favorite id st).2).
Proof.
  intros Hu. unfold delete_favorite.
  destruct (ObjectId id) as [o |]; [| done].
  pose proof (λ e r, pair_count_deleteOne e r o (favoritesCollection st)) as Hd.
  destruct (deleteOne o (favoritesCollection st)) as [n c] eqn:E. simpl in Hd.
  assert (Hc : unique_pairs c)
    by (intros e r; specialize (Hd e r); specialize (Hu e r); lia).
  by destruct (n =? 0)%nat.
Qed.

(** The review routes leave the favorites alone. *)
Lemma review_routes_keep_favorites isEmail language_ok now id b st :
  favoritesCollection (post_reviews isEmail language_ok now b st).2
  = favoritesCollection st
  ∧ favoritesCollection (put_review isEmail language_ok id b st).2
    = favoritesCollection st
  ∧ favoritesCollection (delete_review id st).2 = favoritesCollection st.
Proof.
  split; [| split].
  - unfold post_reviews, handleValidationErrors.
    destruct (validationResult _ _ _); [| done].
    by destruct (insert_review _ _ _) as [[] |].
  - unfold put_review, handleValidationErrors.
    destruct (validationResult _ _ _); [| done].
    destruct (ObjectId id); [| done].
    destruct (updateOne _ _ _ _) as [[count c] |]; [| done].
    by destruct (count =? 0)%nat.
  - unfold delete_review. destruct (ObjectId id); [| done].
    destruct (deleteOne _ _) as [count c]. by destruct (count =? 0)%nat.
Qed.

(** Served one at a time, no request makes a pair a favorite twice. *)
Lemma serve_unique_pairs isEmail language_ok regex_i now req st out :
  serve isEmail language_ok regex_i now req st = Some out →
  unique_pairs (favoritesCollection st) →
  unique_pairs (favoritesCollection out.2).
Proof.
  intros Hs Hu. destruct req; simpl in Hs; simplify_eq/=; try done.
  - by rewrite (proj1 (review_routes_keep_favorites isEmail language_ok
                         now "" b st)).
  - by rewrite (proj1 (proj2 (review_routes_keep_favorites isEmail language_ok
                                now id b st))).
  - by rewrite (proj2 (proj2 (review_routes_keep_favorites isEmail language_ok
                                now id ∅ st))).
  - by apply post_favorites_unique.
  - by apply delete_favorite_unique.
Qed.

Lemma run_unique_pairs isEmail language_ok regex_i reqs st st' :
  run isEmail language_ok regex_i reqs st = Some st' →
  unique_pairs (favoritesCollection st) →
  unique_pairs (favoritesCollection st').
Proof.
  revert st. induction reqs as [| [now req] reqs IH]; intros st Hr Hu; simpl in Hr.
  - by injection Hr as <-.
  - destruct (serve isEmail language_ok regex_i now req st) as [out |]
      eqn:Hs; [| done].
    simpl in Hr. eapply IH; [exact Hr |]. by eapply serve_unique_pairs.
Qed.

(** From the empty database every run of requests whose bodies hold JSON
    scalars keeps the pairs unique. *)
Lemma reachable_unique_pairs isEmail language_ok regex_i reqs st :
  run isEmail language_ok regex_i reqs empty_db = Some st →
  unique_pairs (favoritesCollection st).
Proof.
  intros Hr. eapply run_unique_pairs; [exact Hr |]. intros e r. simpl.
  unfold pair_count. simpl. lia.
Qed.

(** ** Reading one review *)

Lemma Hex_value_is_Some acc l :
  is_Some (Hex.value acc l) ↔ Forall (λ a, is_Some (Hex.digit a)) l.
Proof.
  revert acc. induction l as [| a l IH]; intros acc; simpl.
  - split; [constructor | by eexists].
  - destruct (Hex.digit a) as [d |] eqn:E.
    + rewrite IH. split.
      * intros H. constructor; [by eexists | done].
      * by inversion 1.
    + split; [by intros [? ?] |].
      inversion 1 as [| ? ? [? Hd] ?]. congruence.
Qed.

(** An identifier is well formed exactly when it is 24 hex characters. *)
Lemma ObjectId_is_Some id :
  is_Some (ObjectId id) ↔
  length (list_ascii_of_string id) = 24%nat
  ∧ Forall (λ a, is_Some (Hex.digit a)) (list_ascii_of_string id).
Proof.
  unfold ObjectId.
  destruct (Nat.eqb_spec (length (list_ascii_of_string id)) 24) as [Hl | Hl].
  - rewrite Hex_value_is_Some. tauto.
  - split; [by intros [? ?] | tauto].
Qed.

Lemma with_rating_other r k : k ≠ "rating" → with_rating r !! k = r !! k.
Proof. intros Hk. unfold with_rating. by rewrite lookup_insert_ne. Qed.

Lemma with_rating_rating r :
  with_rating r !! "rating" = Some (VNum (Number (r !! "rating"))).
Proof. unfold with_rating. by rewrite lookup_insert_eq. Qed.

(** C5. [GET /reviews/:id] has three outcomes: 500 for an identifier that
    fails to parse, 404 for a well-formed identifier no stored review has,
    200 with the review (its rating coerced, every other field as stored)
    for a well-formed identifier of a stored review. *)
Theorem get_review_trichotomy id st :
  (ObjectId id = None → status (get_review id st) = 500)
  ∧ (∀ o, ObjectId id = Some o →
       (∀ d, d ∈ reviewCollection st → d !! "_id" ≠ Some (VId o)) →
       get_review id st =
         {| status := 404; sent := Message "Review not found" |})
  ∧ (∀ o d, ObjectId id = Some o →
       d ∈ reviewCollection st → d !! "_id" = Some (VId o) →
       ∃ review,
         review ∈ reviewCollection st ∧ review !! "_id" = Some (VId o)
         ∧ get_review id st =
             {| status := 200; sent := Document (with_rating review) |}
         ∧ ∀ k, k ≠ "rating" → with_rating review !! k = review !! k).
Proof.
  unfold get_review. split; [| split].
  - by intros ->.
  - intros o -> Hno.
    assert (H : findOne (by_id o) (reviewCollection st) = None).
    { apply findOne_None. intros d Hd.
      destruct (matches (by_id o) d) eqn:E; [| done].
      apply matches_by_id in E. by destruct (Hno d Hd). }
    by rewrite H.
  - intros o d -> Hd Hid.
    destruct (findOne (by_id o) (reviewCollection st)) as [review |] eqn:E.
    + apply findOne_Some in E as [Hin Hm]. apply matches_by_id in Hm.
      exists review. repeat split; try done.
      intros k Hk. by apply with_rating_other.
    + pose proof (proj1 (findOne_None _ _) E d Hd) as Hm.
      apply matches_by_id in Hid. congruence.
Qed.

Lemma get_review_trichotomy_witness :
  status (get_review "not-an-id" one_review) = 500
  ∧ get_review "000000000000000000000002" one_review =
      {| status := 404; sent := Message "Review not found" |}
  ∧ status (get_review "000000000000000000000001" one_review) = 200.
Proof.
  split; [| split].
  - apply (get_review_trichotomy "not-an-id" one_review). reflexivity.
  - apply (proj1 (proj2 (get_review_trichotomy "000000000000000000000002"
                           one_review)) 2%N); [reflexivity |].
    intros d Hd. vm_compute in Hd.
    apply elem_of_cons in Hd as [-> | Hd]; [| by apply elem_of_nil in Hd].
    vm_compute. discriminate.
  - destruct (proj2 (proj2 (get_review_trichotomy "000000000000000000000001"
                           one_review)) 1%N
               (<["_id" := VId 1]> (<["date" := VDate 100]> (of_json <$> taco (JNum 4)))))
      as (review & _ & _ & -> & _).
    + reflexivity.
    + vm_compute. left.
    + vm_compute. reflexivity.
    + reflexivity.
Defined.

(** ** Listing favorites *)

Lemma lookup_review_wellformed s o reviews :
  ObjectId s = Some o →
  lookup_review (Some (VStr s)) reviews = Some (findOne (by_id o) reviews).
Proof. intros H. simpl. by rewrite H. Qed.

Lemma lookup_review_malformed s reviews :
  ObjectId s = None → lookup_review (Some (VStr s)) reviews = None.
Proof. intros H. simpl. by rewrite H. Qed.

Lemma findOne_by_id_None o c :
  (∀ d, d ∈ c → d !! "_id" ≠ Some (VId o)) → findOne (by_id o) c = None.
Proof.
  intros Hno. apply findOne_None. intros d Hd.
  destruct (matches (by_id o) d) eqn:E; [| done].
  apply matches_by_id in E. by destruct (Hno d Hd).
Qed.

(** C6, as the code has it. [GET /favorites/:email] answers with one merged
    record per favorite of that email, in storage order, when every lookup
    of a referenced review returns; a favorite whose well-formed
    [reviewId] matches no review (a deleted review) gets a null [review].
    A favorite of that email whose [reviewId] does not parse makes the
    whole answer a 500. *)
Theorem get_favorites_join email st :
  let favorites :=
    find [("userEmail", Eq (VStr email))] (favoritesCollection st) in
  let reviews := reviewCollection st in
  ((∀ fav, fav ∈ favorites → is_Some (lookup_review (fav !! "reviewId") reviews)) →
     ∃ populated,
       get_favorites email st = {| status := 200; sent := Populated populated |}
       ∧ Forall2 (λ fav p, ∃ review,
                    lookup_review (fav !! "reviewId") reviews = Some review
                    ∧ p = (delete "review" fav, review))
           favorites populated)
  ∧ (∀ fav s o, fav !! "reviewId" = Some (VStr s) → ObjectId s = Some o →
       (∀ d, d ∈ reviews → d !! "_id" ≠ Some (VId o)) →
       populate reviews fav = Some (delete "review" fav, None))
  ∧ (∀ fav s, fav ∈ favorites →
       fav !! "reviewId" = Some (VStr s) → ObjectId s = None →
       get_favorites email st =
         {| status := 500; sent := Message "Failed to fetch favorites" |}).
Proof.
  intros favorites reviews. unfold get_favorites. fold favorites reviews.
  split; [| split].
  - intros Hall.
    assert (Hsome : is_Some (mapM (populate reviews) favorites)).
    { apply mapM_is_Some, Forall_forall. intros fav Hfav. simpl.
      unfold populate. destruct (Hall fav Hfav) as [review ->]. by eexists. }
    destruct Hsome as [populated Hp]. rewrite Hp. exists populated.
    split; [done |]. apply mapM_Some_1 in Hp.
    eapply Forall2_impl; [exact Hp |]. intros fav p Hfp. simpl in Hfp.
    unfold populate in Hfp.
    destruct (lookup_review (fav !! "reviewId") reviews) as [review |];
      simplify_eq/=. by exists review.
  - intros fav s o Hr Hs Hno. unfold populate.
    rewrite Hr, (lookup_review_wellformed s o) by done.
    by rewrite findOne_by_id_None.
  - intros fav s Hfav Hr Hs.
    assert (Hnone : mapM (populate reviews) favorites = None).
    { apply mapM_None, Exists_exists. exists fav. split; [done |].
      unfold populate. by rewrite Hr, lookup_review_malformed. }
    by rewrite Hnone.
Qed.

Lemma get_favorites_join_witness :
  (∃ populated fav,
     get_favorites "a@b.com" orphan_favorite =
       {| status := 200; sent := Populated populated |}
     ∧ populated = [(fav, None)])
  ∧ get_favorites "a@b.com" two_favorites =
      {| status := 500; sent := Message "Failed to fetch favorites" |}.
Proof.
  split.
  - destruct (proj1 (get_favorites_join "a@b.com" orphan_favorite))
      as (populated & Hres & Hall).
    + intros fav Hfav. vm_compute in Hfav.
      apply elem_of_cons in Hfav as [-> | Hfav]; [| by apply elem_of_nil in Hfav].
      vm_compute. by eexists.
    + exists populated. eexists. split; [exact Hres |].
      clear Hall. vm_compute in Hres. injection Hres as <-. reflexivity.
  - apply (proj2 (proj2 (get_favorites_join "a@b.com" two_favorites))
             (<["_id" := VId 2]> (favorite_doc (VStr "a@b.com") (VStr "bad") 300))
             "bad").
    + vm_compute. right. left.
    + vm_compute. reflexivity.
    + reflexivity.
Defined.

(** The claim as C6 states it fails: one favorite with a malformed
    [reviewId] turns the listing of both favorites into a 500. *)
Lemma get_favorites_malformed_aborts :
  length (find [("userEmail", Eq (VStr "a@b.com"))]
            (favoritesCollection two_favorites)) = 2%nat
  ∧ ¬ (∃ populated,
         get_favorites "a@b.com" two_favorites =
           {| status := 200; sent := Populated populated |})
  ∧ status (get_favorites "a@b.com" two_favorites) = 500.
Proof.
  split; [reflexivity |]. split; [| reflexivity].
  intros [populated H]. vm_compute in H. discriminate H.
Qed.

(** ** Creating and reading reviews *)

Lemma insertOne_Some d c id c' :
  insertOne d c = Some (id, c') →
  id = id_for d c
  ∧ c' = (c ++ [<["_id" := id]> d])%list
  ∧ ∀ e, e ∈ c → e !! "_id" ≠ Some id.
Proof.
  unfold insertOne. fold (id_for d c).
  destruct (List.existsb _ c) eqn:E; [done |].
  intros [= <- <-]. repeat split. by apply existsb_id_false.
Qed.

Lemma insertOne_None d c :
  insertOne d c = None → ∃ e, e ∈ c ∧ e !! "_id" = Some (id_for d c).
Proof.
  unfold insertOne. fold (id_for d c).
  destruct (List.existsb _ c) eqn:E; [| done]. intros _.
  apply existsb_exists in E as (e & He & Hid).
  exists e. split; [by apply list_elem_of_In |].
  by apply bool_decide_eq_true in Hid.
Qed.

Lemma insert_review_Some language_ok d c id c' :
  insert_review language_ok d c = Some (id, c') →
  text_index_accepts language_ok d = true ∧ insertOne d c = Some (id, c').
Proof.
  unfold insert_review. by destruct (text_index_accepts language_ok d).
Qed.

Lemma insert_review_accepted language_ok d c :
  text_index_accepts language_ok d = true →
  insert_review language_ok d c = insertOne d c.
Proof. unfold insert_review. by intros ->. Qed.

Lemma post_reviews_validated isEmail language_ok now b st :
  validationResult isEmail post_reviews_rules b = [] →
  post_reviews isEmail language_ok now b st =
    match insert_review language_ok (review_doc b now) (reviewCollection st) with
    | Some (id, c) =>
        ({| status := 201; sent := InsertResult id |}, set_reviews st c)
    | None => ({| status := 500; sent := Message "Failed to add review" |}, st)
    end.
Proof.
  intros Hv. unfold post_reviews. by rewrite handleValidationErrors_passes.
Qed.

(** A created review is what a read by its identifier finds. *)
Lemma findOne_inserted o d c :
  (∀ e, e ∈ c → e !! "_id" ≠ Some (VId o)) →
  findOne (by_id o) (c ++ [<["_id" := VId o]> d])%list
  = Some (<["_id" := VId o]> d).
Proof.
  intros Hno. unfold findOne. rewrite find_snoc.
  assert (Hc : find (by_id o) c = []).
  { pose proof (findOne_by_id_None o c Hno) as H. unfold findOne in H.
    by destruct (find (by_id o) c). }
  assert (Hm : matches (by_id o) (<["_id" := VId o]> d) = true)
    by (apply matches_by_id; by rewrite lookup_insert_eq).
  by rewrite Hc, Hm.
Qed.

Lemma validated_rating isEmail b :
  validationResult isEmail post_reviews_rules b = [] →
  isInt 0 5 (toString (b !! "rating")) = true.
Proof.
  intros Hv.
  pose proof (proj1 (validationResult_nil _ _ _) Hv
                (required "rating" (IsInt 0 5))) as H.
  unfold violates in H. simpl in H.
  destruct (b !! "rating") as [j |] eqn:E.
  - apply negb_false_iff, H. unfold post_reviews_rules. do 3 right. left.
  - apply negb_false_iff, H. unfold post_reviews_rules. do 3 right. left.
Qed.

Lemma isInt_range min max s :
  isInt min max s = true → ∃ z, StringToNumber s = Int z ∧ min <= z <= max.
Proof.
  unfold isInt. intros [_ H]%andb_true_iff.
  destruct (StringToNumber s) as [z |]; [| done].
  exists z. split; [done | lia].
Qed.

(** The claim as C1 states it fails: a rating submitted as the string
    ["4"] passes validation and is stored as a string. *)
Lemma post_reviews_stores_string_rating :
  ∃ review st',
    post_reviews Email.isEmail Text.language_ok 100 (taco (JStr "4")) empty_db =
      ({| status := 201; sent := InsertResult (VId 1) |}, st')
    ∧ reviewCollection st' = [review]
    ∧ review !! "rating" = Some (VStr "4")
    ∧ ¬ is_number (review !! "rating").
Proof.
  eexists. eexists. split; [vm_compute; reflexivity |].
  split; [reflexivity |]. split; [reflexivity |].
  intros [n Hn]. vm_compute in Hn. discriminate Hn.
Qed.

Lemma insertOne_unused d c :
  (∀ e, e ∈ c → e !! "_id" ≠ Some (id_for d c)) →
  insertOne d c = Some (id_for d c, (c ++ [<["_id" := id_for d c]> d])%list).
Proof.
  intros Hno. unfold insertOne. fold (id_for d c).
  by rewrite (proj2 (existsb_id_false c (id_for d c)) Hno).
Qed.

Lemma insertOne_used d c e :
  e ∈ c → e !! "_id" = Some (id_for d c) → insertOne d c = None.
Proof.
  intros He Hid.
  destruct (insertOne d c) as [[id c'] |] eqn:E; [| done].
  apply insertOne_Some in E as (-> & _ & Hno). by destruct (Hno e He).
Qed.

Lemma id_for_generated d c :
  d !! "_id" = None → id_for d c = VId (fresh_oid c).
Proof. intros H. unfold id_for. by rewrite H. Qed.

Lemma review_doc_id b now :
  review_doc b now !! "_id" = of_json <$> b !! "_id".
Proof. unfold review_doc. by rewrite lookup_insert_ne, lookup_fmap. Qed.

Lemma text_index_language language_ok b now :
  text_index_accepts language_ok (review_doc b now) = true ↔
  b !! "language" = None
  ∨ ∃ s, b !! "language" = Some (JStr s) ∧ language_ok s = true.
Proof.
  unfold text_index_accepts, review_doc.
  rewrite lookup_insert_ne, lookup_fmap by done.
  destruct (b !! "language") as [[| ? | ? | s] |]; simpl.
  - split; [done |]. by intros [? | (s' & ? & _)].
  - split; [done |]. by intros [? | (s' & ? & _)].
  - split; [done |]. by intros [? | (s' & ? & _)].
  - split; [intros H; right; by exists s |].
    by intros [? | (s' & [= ->] & H)].
  - split; [by left | done].
Qed.

Lemma insert_review_refused language_ok d c :
  text_index_accepts language_ok d = false → insert_review language_ok d c = None.
Proof. intros H. unfold insert_review. by rewrite H. Qed.

(** C8, as the code has it, for a body whose fields are JSON scalars under
    plain names. Behind a passed validation [POST /reviews] hands the
    storage the body's fields as given, with [date] set to the server time.
    The identifier is the body's own [_id] if it has one, else a generated
    one. The storage takes the document when no stored review has that
    identifier and the text index on [foodName] accepts it, that is when
    it has no [language] field or one that names a language of the text
    search: it is then stored under the identifier and the answer is 201
    with the insertion result. A body without [_id] never meets a stored
    identifier. When the identifier is in use, or the text index refuses
    the document, the answer is 500 and nothing is inserted. *)
Theorem post_reviews_inserts_body isEmail language_ok now b st :
  plain_body b →
  validationResult isEmail post_reviews_rules b = [] →
  let reviews := reviewCollection st in
  let id := id_for (review_doc b now) reviews in
  (text_index_accepts language_ok (review_doc b now) = true →
   (∀ e, e ∈ reviews → e !! "_id" ≠ Some id) →
     ∃ review : doc,
       post_reviews isEmail language_ok now b st =
         ({| status := 201; sent := InsertResult id |},
          set_reviews st (reviews ++ [review])%list)
       ∧ review = <["_id" := id]> (review_doc b now)
       ∧ review !! "date" = Some (VDate now)
       ∧ review !! "_id" = Some id
       ∧ (∀ k, k ≠ "date" → k ≠ "_id" → review !! k = of_json <$> b !! k))
  ∧ (∀ e, e ∈ reviews → e !! "_id" = Some id →
       post_reviews isEmail language_ok now b st =
         ({| status := 500; sent := Message "Failed to add review" |}, st))
  ∧ (text_index_accepts language_ok (review_doc b now) = false →
       post_reviews isEmail language_ok now b st =
         ({| status := 500; sent := Message "Failed to add review" |}, st))
  ∧ (text_index_accepts language_ok (review_doc b now) = true ↔
       b !! "language" = None
       ∨ ∃ s, b !! "language" = Some (JStr s) ∧ language_ok s = true)
  ∧ (b !! "_id" = None →
       id = VId (fresh_oid reviews)
       ∧ ∀ e, e ∈ reviews → e !! "_id" ≠ Some id).
Proof.
  intros _ Hv reviews id. rewrite post_reviews_validated by done.
  fold reviews. split; [| split; [| split; [| split]]].
  - intros Hok Hno. rewrite insert_review_accepted by done.
    rewrite insertOne_unused by done. fold id.
    exists (<["_id" := id]> (review_doc b now)).
    split; [done |]. split; [done |]. split; [| split].
    + unfold review_doc. by rewrite lookup_insert_ne, lookup_insert_eq.
    + by rewrite lookup_insert_eq.
    + intros k Hd Hi. unfold review_doc.
      by rewrite !lookup_insert_ne, lookup_fmap.
  - intros e He Hid.
    destruct (insert_review language_ok (review_doc b now) reviews)
      as [[id' c'] |] eqn:E; [| done].
    apply insert_review_Some in E as [_ E].
    by rewrite (insertOne_used _ _ e) in E.
  - intros Hno. by rewrite insert_review_refused.
  - apply text_index_language.
  - intros Hb.
    assert (Hid : id = VId (fresh_oid reviews)).
    { apply id_for_generated. by rewrite review_doc_id, Hb. }
    split; [done |]. rewrite Hid. intros e He. by apply fresh_oid_unused.
Qed.

Lemma post_reviews_inserts_body_witness :
  ∃ review : doc,
    post_reviews Email.isEmail Text.language_ok 100
      (<["note" := JStr "yum"]> (taco (JNum 4))) empty_db =
      ({| status := 201; sent := InsertResult (VId 1) |},
       set_reviews empty_db [review])
    ∧ review !! "note" = Some (VStr "yum")
    ∧ review !! "date" = Some (VDate 100).
Proof.
  destruct (post_reviews_inserts_body Email.isEmail Text.language_ok 100
              (<["note" := JStr "yum"]> (taco (JNum 4))) empty_db)
    as (Hok & _).
  - unfold plain_body. apply (bool_decide_unpack _). vm_compute. exact I.
  - vm_compute. reflexivity.
  - destruct Hok as (review & Hpost & _ & Hdate & _ & Hk).
    + vm_compute. reflexivity.
    + intros e He. by apply elem_of_nil in He.
    + exists review. split; [exact Hpost |]. split; [| exact Hdate].
      rewrite Hk by done. reflexivity.
Defined.

(** The claim as C8 states it fails: a valid body that carries an [_id]
    already in use is answered 500, and nothing is inserted; so is a valid
    body whose [language] field names no language of the text search. *)
Lemma post_reviews_duplicate_id :
  let b := <["_id" := JStr "a"]> (taco (JNum 4)) in
  let st := (post_reviews Email.isEmail Text.language_ok 100 b empty_db).2 in
  let b' := <["language" := JStr "klingon"]> (taco (JNum 4)) in
  validationResult Email.isEmail post_reviews_rules b = []
  ∧ length (reviewCollection st) = 1%nat
  ∧ post_reviews Email.isEmail Text.language_ok 200 b st =
      ({| status := 500; sent := Message "Failed to add review" |}, st)
  ∧ validationResult Email.isEmail post_reviews_rules b' = []
  ∧ post_reviews Email.isEmail Text.language_ok 100 b' empty_db =
      ({| status := 500; sent := Message "Failed to add review" |}, empty_db).
Proof.
  split; [vm_compute; reflexivity |]. split; [reflexivity |].
  split; [vm_compute; reflexivity |]. split; vm_compute; reflexivity.
Qed.

(** ** Updating a review *)

Lemma set_reviews_same st : set_reviews st (reviewCollection st) = st.
Proof. by destruct st. Qed.

Lemma updateOne_no_match accepts o upd c :
  (∀ d, d ∈ c → d !! "_id" ≠ Some (VId o)) →
  updateOne accepts o upd c = Some (0%nat, c).
Proof.
  induction c as [| d c IH]; intros Hno; simpl; [done |].
  rewrite bool_decide_eq_false_2 by (apply Hno; left).
  rewrite IH; [done |]. intros e He. apply Hno. by right.
Qed.

Lemma updateOne_first_match accepts o upd pre d post :
  d !! "_id" = Some (VId o) →
  (∀ e, e ∈ pre → e !! "_id" ≠ Some (VId o)) →
  updateOne accepts o upd (pre ++ d :: post)%list =
    (d' ← apply_set accepts upd d; Some (1%nat, (pre ++ d' :: post)%list)).
Proof.
  intros Hd. induction pre as [| e pre IH]; intros Hno; simpl.
  - by rewrite bool_decide_eq_true_2.
  - rewrite bool_decide_eq_false_2 by (apply Hno; left).
    rewrite IH by (intros e' He'; apply Hno; by right).
    by destruct (apply_set accepts upd d).
Qed.

Lemma of_json_not_id j o : of_json j ≠ VId o.
Proof. by destruct j. Qed.

Lemma plain_key_no_dollar k : plain_key k = true → dollar_key k = false.
Proof.
  unfold plain_key. intros [[_ H]%andb_true_iff _]%andb_true_iff.
  by apply negb_true_iff.
Qed.

Lemma plain_body_no_dollar (b : body) :
  plain_body b →
  map_Forall (λ k (_ : value), dollar_key k = false) (of_json <$> b).
Proof.
  intros Hb k v [j [_ Hj]]%lookup_fmap_Some.
  apply plain_key_no_dollar, (Hb k j Hj).
Qed.

Lemma apply_set_plain accepts upd d :
  map_Forall (λ k (_ : value), dollar_key k = false) upd →
  apply_set accepts upd d =
    match upd !! "_id" with
    | Some v =>
        if bool_decide (d !! "_id" = Some v)
        then if bool_decide (upd ∪ d = d) || accepts (upd ∪ d)
             then Some (upd ∪ d) else None
        else None
    | None => if bool_decide (upd ∪ d = d) || accepts (upd ∪ d)
              then Some (upd ∪ d) else None
    end.
Proof. intros H. unfold apply_set. by rewrite bool_decide_eq_true_2. Qed.

Lemma apply_set_Some accepts upd d d' :
  apply_set accepts upd d = Some d' →
  d' = upd ∪ d
  ∧ (d' = d ∨ accepts d' = true)
  ∧ map_Forall (λ k (_ : value), dollar_key k = false) upd
  ∧ (upd !! "_id" = None ∨ upd !! "_id" = d !! "_id").
Proof.
  intros H.
  assert (Hk : map_Forall (λ k (_ : value), dollar_key k = false) upd).
  { revert H. unfold apply_set. by case_bool_decide. }
  rewrite apply_set_plain in H by done.
  assert (Hw : (if bool_decide (upd ∪ d = d) || accepts (upd ∪ d)
                then Some (upd ∪ d) else None) = Some d' →
               d' = upd ∪ d ∧ (d' = d ∨ accepts d' = true)).
  { destruct (bool_decide (upd ∪ d = d) || accepts (upd ∪ d)) eqn:E; [| done].
    intros [= <-]. split; [done |].
    apply orb_true_iff in E as [E%bool_decide_eq_true | E]; auto. }
  destruct (upd !! "_id") as [v |] eqn:E.
  - destruct (bool_decide (d !! "_id" = Some v)) eqn:Hd; [| done].
    apply bool_decide_eq_true in Hd. apply Hw in H as [-> Ha].
    split; [done |]. split; [done |]. split; [done |]. right. by rewrite Hd.
  - apply Hw in H as [-> Ha].
    split; [done |]. split; [done |]. split; [done |]. by left.
Qed.

Lemma put_review_validated isEmail language_ok id b st :
  validationResult isEmail put_reviews_rules b = [] →
  put_review isEmail language_ok id b st =
    match ObjectId id with
    | None => ({| status := 500; sent := ErrorPage |}, st)
    | Some o =>
        match updateOne (text_index_accepts language_ok) o (of_json <$> b)
                (reviewCollection st) with
        | Some (matchedCount, c) =>
            if (matchedCount =? 0)%nat
            then ({| status := 404; sent := Message "Review not found" |},
                  set_reviews st c)
            else ({| status := 200;
                     sent := Message "Review updated successfully" |},
                  set_reviews st c)
        | None =>
            ({| status := 500; sent := Message "Failed to update review" |}, st)
        end
    end.
Proof.
  intros Hv. unfold put_review. by rewrite handleValidationErrors_passes.
Qed.

(** C7, as the code has it, for a well-formed identifier and a validated
    body that is not empty and whose fields are JSON scalars under plain
    names. When no review has the identifier the answer is 404 and nothing
    changes. When a review has it, the body has no [_id] field and the
    merged review is unchanged or accepted by the text index on [foodName]
    (its [language] field, if it has one, names a language of the text
    search), that review gets every field of the body verbatim, keeps
    every other field (its identifier too, and its [date] unless the body
    has one), and the other reviews are untouched. A body with an [_id]
    field is refused by the storage, and so is a changed review that the
    text index does not accept: the answer is 500 and nothing changes. *)
Theorem put_review_merges isEmail language_ok id b st o :
  b ≠ ∅ → plain_body b →
  validationResult isEmail put_reviews_rules b = [] →
  ObjectId id = Some o →
  let reviews := reviewCollection st in
  ((∀ d, d ∈ reviews → d !! "_id" ≠ Some (VId o)) →
     put_review isEmail language_ok id b st =
       ({| status := 404; sent := Message "Review not found" |}, st))
  ∧ (∀ pre d post,
       reviews = (pre ++ d :: post)%list →
       d !! "_id" = Some (VId o) →
       (∀ e, e ∈ pre → e !! "_id" ≠ Some (VId o)) →
       let merged := (of_json <$> b) ∪ d in
       (b !! "_id" = None →
        merged = d ∨ text_index_accepts language_ok merged = true →
          put_review isEmail language_ok id b st =
            ({| status := 200; sent := Message "Review updated successfully" |},
             set_reviews st (pre ++ merged :: post)%list)
          ∧ (∀ k j, b !! k = Some j → merged !! k = Some (of_json j))
          ∧ (∀ k, b !! k = None → merged !! k = d !! k)
          ∧ merged !! "_id" = Some (VId o))
       ∧ (is_Some (b !! "_id") →
            put_review isEmail language_ok id b st =
              ({| status := 500; sent := Message "Failed to update review" |},
               st))
       ∧ (merged ≠ d → text_index_accepts language_ok merged = false →
            put_review isEmail language_ok id b st =
              ({| status := 500; sent := Message "Failed to update review" |},
               st))).
Proof.
  intros _ Hplain Hv Hid reviews. rewrite put_review_validated, Hid by done.
  fold reviews. split.
  - intros Hno. rewrite updateOne_no_match by done. simpl.
    unfold reviews. by rewrite set_reviews_same.
  - intros pre d post -> Hd Hpre merged.
    rewrite updateOne_first_match by done.
    rewrite apply_set_plain by by apply plain_body_no_dollar.
    rewrite lookup_fmap. fold merged. split; [| split].
    + intros Hb Hok. rewrite Hb. simpl.
      assert (bool_decide (merged = d)
              || text_index_accepts language_ok merged = true) as ->.
      { apply orb_true_iff. destruct Hok as [Hok | Hok]; [left | by right].
        by apply bool_decide_eq_true. }
      simpl. split; [done |]. split; [| split].
      * intros k j Hk. apply lookup_union_Some_l.
        by rewrite lookup_fmap, Hk.
      * intros k Hk. apply lookup_union_r. by rewrite lookup_fmap, Hk.
      * unfold merged. rewrite lookup_union_r; [done |].
        by rewrite lookup_fmap, Hb.
    + intros [j Hj]. rewrite Hj. simpl.
      rewrite bool_decide_eq_false_2; [done |].
      rewrite Hd. intros [= H]. symmetry in H. by apply of_json_not_id in H.
    + intros Hne Hno. rewrite Hno, bool_decide_eq_false_2 by done. simpl.
      destruct (b !! "_id") as [j |]; simpl; [| done].
      by destruct (bool_decide (d !! "_id" = Some (of_json j))).
Qed.

Lemma put_review_merges_witness :
  let b : body := <["rating" := JStr "2"]> (<["note" := JStr "meh"]> ∅) in
  let d : doc := <["_id" := VId 1]> (review_doc (taco (JNum 4)) 100) in
  put_review Email.isEmail Text.language_ok "000000000000000000000001" b
    one_review =
    ({| status := 200; sent := Message "Review updated successfully" |},
     set_reviews one_review [(of_json <$> b) ∪ d])
  ∧ ((of_json <$> b) ∪ d) !! "rating" = Some (VStr "2")
  ∧ ((of_json <$> b) ∪ d) !! "note" = Some (VStr "meh")
  ∧ ((of_json <$> b) ∪ d) !! "date" = Some (VDate 100).
Proof.
  intros b d.
  destruct (put_review_merges Email.isEmail Text.language_ok
              "000000000000000000000001" b one_review 1%N) as [_ Hm].
  - intros H. apply (f_equal (λ m : body, m !! "note")) in H. discriminate H.
  - unfold plain_body. apply (bool_decide_unpack _). vm_compute. exact I.
  - vm_compute. reflexivity.
  - reflexivity.
  - destruct (Hm [] d []) as [Hok _].
    + vm_compute. reflexivity.
    + vm_compute. reflexivity.
    + intros e He. by apply elem_of_nil in He.
    + destruct Hok as (Hput & Hset & Hkeep & _);
        [reflexivity | right; vm_compute; reflexivity |].
      split; [exact Hput |]. split; [| split].
      * apply (Hset "rating" (JStr "2")). reflexivity.
      * apply (Hset "note" (JStr "meh")). reflexivity.
      * rewrite Hkeep by reflexivity. vm_compute. reflexivity.
Defined.

(** The claim as C7 states it fails: a validated body with an [_id] field
    is not persisted, the storage refuses to change an identifier and the
    answer is 500; nor is one whose [language] field names no language of
    the text search. *)
Lemma put_review_rejects_id :
  let b : body := <["_id" := JStr "x"]> ∅ in
  let b' : body := <["language" := JStr "klingon"]> ∅ in
  validationResult Email.isEmail put_reviews_rules b = []
  ∧ ObjectId "000000000000000000000001" = Some 1%N
  ∧ (∃ d, reviewCollection one_review = [d] ∧ d !! "_id" = Some (VId 1))
  ∧ put_review Email.isEmail Text.language_ok "000000000000000000000001" b
      one_review =
      ({| status := 500; sent := Message "Failed to update review" |},
       one_review)
  ∧ validationResult Email.isEmail put_reviews_rules b' = []
  ∧ put_review Email.isEmail Text.language_ok "000000000000000000000001" b'
      one_review =
      ({| status := 500; sent := Message "Failed to update review" |},
       one_review).
Proof.
  split; [vm_compute; reflexivity |]. split; [reflexivity |].
  split; [eexists; split; reflexivity |].
  split; [vm_compute; reflexivity |]. split; vm_compute; reflexivity.
Qed.

(** ** Searching *)

Lemma parse_plain l :
  Forall (λ a, Regex.is_meta a = false) l →
  Regex.parse l = Some (Regex.Lit <$> l).
Proof.
  induction 1 as [| a l Ha _ IH]; simpl; [done |].
  rewrite IH. simpl.
  destruct (decide (a = "."%char)) as [-> | Hdot]; [done |].
  rewrite bool_decide_eq_false_2 by done. by rewrite Ha.
Qed.

Lemma match_here_plain n h :
  Regex.match_here (Regex.Lit <$> n) h = true ↔
  ∃ post, Str.lower <$> h = ((Str.lower <$> n) ++ post)%list.
Proof.
  revert h. induction n as [| a n IH]; intros h; simpl.
  - split; [intros _; by eexists | done].
  - destruct h as [| c h]; simpl.
    + split; [done | by intros [post H]].
    + rewrite andb_true_iff, bool_decide_eq_true, IH. split.
      * intros [Ha [post Hp]]. exists post. rewrite Ha. f_equal. exact Hp.
      * intros [post Hp]. injection Hp as Ha Hp.
        split; [done | by exists post].
Qed.

Lemma search_spec p h :
  Regex.search p h = true ↔
  ∃ pre rest, h = (pre ++ rest)%list ∧ Regex.match_here p rest = true.
Proof.
  induction h as [| c h IH]; simpl.
  - rewrite orb_false_r. split.
    + intros H. by exists [], [].
    + intros (pre & rest & Heq & Hm).
      symmetry in Heq. apply app_eq_nil in Heq as [-> ->]. done.
  - rewrite orb_true_iff, IH. split.
    + intros [Hm | (pre & rest & -> & Hm)].
      * by exists [], (c :: h).
      * by exists (c :: pre), rest.
    + intros (pre & rest & Heq & Hm). destruct pre as [| c' pre].
      * simpl in Heq. subst rest. by left.
      * injection Heq as -> ->. right. by exists pre, rest.
Qed.

(** A pattern without special characters matches exactly the texts that
    contain it, case-insensitively. *)
Lemma search_plain needle hay :
  Regex.search (Regex.Lit <$> list_ascii_of_string needle)
               (list_ascii_of_string hay) = true
  ↔ substring_i needle hay.
Proof.
  unfold substring_i. rewrite search_spec. split.
  - intros (pre & rest & -> & Hm). apply match_here_plain in Hm as [post Hm].
    exists (Str.lower <$> pre), post. by rewrite fmap_app, Hm.
  - intros (pre & post & Heq).
    apply fmap_app_inv in Heq as (h1 & h2 & -> & Heq & ->).
    exists h1, h2. split; [done |]. apply match_here_plain. by exists post.
Qed.

Lemma matches_app q1 q2 d :
  matches (q1 ++ q2)%list d = matches q1 d && matches q2 d.
Proof. unfold matches. apply forallb_app. Qed.

Lemma matches_email e d :
  matches [("userEmail", Eq (VStr e))] d
  = bool_decide (d !! "userEmail" = Some (VStr e)).
Proof.
  unfold matches. simpl. rewrite andb_true_r.
  destruct (d !! "userEmail") as [v |]; simpl.
  - destruct (decide (v = VStr e)) as [-> | Hv].
    + by rewrite !bool_decide_eq_true_2.
    + rewrite !bool_decide_eq_false_2; [done | congruence | done].
  - done.
Qed.

Lemma matches_regex m d :
  matches [("foodName", RegexI m)] d
  = match d !! "foodName" with
    | Some (VStr n) => m n
    | _ => false
    end.
Proof.
  unfold matches. simpl. rewrite andb_true_r.
  by destruct (d !! "foodName") as [[] |].
Qed.

Lemma find_ext q f c :
  (∀ d, matches q d = f d) → find q c = List.filter f c.
Proof. intros H. unfold find. by apply List.filter_ext. Qed.

Lemma matches_email_query userEmail d :
  matches match userEmail with
          | Some e => if String.eqb e "" then []
                      else [("userEmail", Eq (VStr e))]
          | None => []
          end d
  = email_filter userEmail d.
Proof.
  unfold email_filter. destruct userEmail as [e |]; [| done].
  destruct (String.eqb e ""); [done |]. by rewrite matches_email.
Qed.

(** The filter document of [GET /reviews] selects by the two filters, when
    the storage takes the search as a regular expression. *)
Lemma reviews_query_filters regex_i userEmail search m :
  (∀ s, search = Some s → search_active search = true →
        regex_i s = Some m) →
  ∃ q, reviews_query regex_i userEmail search = Some q
       ∧ ∀ d, matches q d
              = email_filter userEmail d && search_filter search m d.
Proof.
  intros Hr. unfold reviews_query, search_filter.
  destruct (search_active search) eqn:Hact.
  - destruct search as [s |]; [| done].
    rewrite (Hr s eq_refl eq_refl). simpl in Hact. rewrite Hact. simpl.
    eexists. split; [done |]. intros d.
    by rewrite matches_app, matches_email_query, matches_regex.
  - destruct search as [s |]; simpl in Hact; [rewrite Hact |];
      (eexists; split; [done |]; intros d;
       by rewrite matches_email_query, andb_true_r).
Qed.

Lemma reviews_query_refused regex_i userEmail s :
  search_active (Some s) = true → regex_i s = None →
  reviews_query regex_i userEmail (Some s) = None.
Proof.
  intros Hact Hr. unfold reviews_query. simpl in Hact. by rewrite Hact, Hr.
Qed.

(** C4, as the code has it, for query parameters that are strings and
    stored fields that are scalars. [userEmail], unless absent or empty,
    selects by exact match. [search], unless absent, empty or all white
    space, is handed to the storage as a case-insensitive regular
    expression: when the storage refuses it as a pattern the answer is 500
    with [{message: "Failed to fetch reviews"}]; otherwise it selects the
    reviews whose [foodName] is a string the expression matches. In every
    other case the answer is 200 with [{reviews: [...]}]: the stored
    reviews that pass both filters, ordered by [date] descending, each
    with its rating coerced, and the empty list when none passes. *)
Theorem get_reviews_filters regex_i userEmail search st :
  (∀ s, search = Some s → search_active search = true → regex_i s = None →
     get_reviews regex_i userEmail search st =
       {| status := 500; sent := Message "Failed to fetch reviews" |})
  ∧ (∀ m,
       (∀ s, search = Some s → search_active search = true →
             regex_i s = Some m) →
       let selected (d : doc) :=
         email_filter userEmail d && search_filter search m d in
       ∃ l,
         get_reviews regex_i userEmail search st =
           {| status := 200; sent := Reviews (with_rating <$> l) |}
         ∧ l ≡ₚ List.filter selected (reviewCollection st)
         ∧ Sorted (desc_by "date") l
         ∧ (List.filter selected (reviewCollection st) = [] → l = [])
         ∧ (∀ d, selected d = true ↔
              (∀ e, userEmail = Some e → e ≠ "" →
                    d !! "userEmail" = Some (VStr e))
              ∧ (search_active search = true →
                   ∃ n, d !! "foodName" = Some (VStr n) ∧ m n = true))).
Proof.
  split.
  - intros s -> Hact Hr. unfold get_reviews.
    by rewrite reviews_query_refused.
  - intros m Hr selected.
    destruct (reviews_query_filters regex_i userEmail search m Hr)
      as (q & Hq & Hm).
    exists (sort_desc "date" (find q (reviewCollection st))).
    unfold get_reviews. rewrite Hq.
    assert (Hfind : find q (reviewCollection st)
                    = List.filter selected (reviewCollection st))
      by (by apply find_ext).
    split; [done |]. split; [| split; [| split]].
    + rewrite sort_desc_Permutation. by rewrite Hfind.
    + apply sort_desc_Sorted.
    + intros Hnil. rewrite Hfind, Hnil. reflexivity.
    + intros d. unfold selected, email_filter, search_filter.
      rewrite andb_true_iff. apply Morphisms_Prop.and_iff_morphism.
      * destruct userEmail as [e |]; [| split; [by intros _ | done]].
        rewrite orb_true_iff, bool_decide_eq_true. split.
        -- intros [He%String.eqb_eq | Hd] e' [= <-] Hne; [done | done].
        -- intros H. destruct (decide (e = "")) as [-> | Hne];
             [by left | right; by apply H].
      * destruct (search_active search); [| split; [by intros _ | done]].
        destruct (d !! "foodName") as [[| | | n | |] |];
          try (split; [done | by intros [n' [[=] _]]]).
        split; [intros H _; by exists n |].
        intros H. by destruct (H eq_refl) as (n' & [= <-] & Hn).
Qed.

Lemma get_reviews_filters_witness :
  ∃ l,
    get_reviews Regex.compile (Some "a@b.com") (Some "tAc") one_review =
      {| status := 200; sent := Reviews (with_rating <$> l) |}
    ∧ length l = 1%nat.
Proof.
  destruct (get_reviews_filters Regex.compile (Some "a@b.com") (Some "tAc")
              one_review) as [_ Hok].
  destruct (Hok (λ n, Regex.search (Regex.Lit <$> list_ascii_of_string "tAc")
                        (list_ascii_of_string n)))
    as (l & Hget & Hperm & _).
  - intros s [= <-] _. reflexivity.
  - exists l. split; [exact Hget |].
    apply Permutation_length in Hperm. rewrite Hperm. reflexivity.
Defined.

(** The claim as C4 states it fails: the search is a regular expression,
    so ["."] selects a review whose [foodName] has no dot in it. *)
Lemma get_reviews_search_is_regex :
  ∃ l d,
    get_reviews Regex.compile None (Some ".") one_review =
      {| status := 200; sent := Reviews l |}
    ∧ d ∈ l
    ∧ d !! "foodName" = Some (VStr "Taco")
    ∧ ¬ substring_i "." "Taco".
Proof.
  eexists. eexists. split; [vm_compute; reflexivity |].
  split; [left |]. split; [reflexivity |].
  intros (pre & post & H).
  assert (Hin : "."%char ∈ Str.lower <$> list_ascii_of_string "Taco").
  { rewrite H. apply elem_of_app. right. left. }
  repeat (apply elem_of_cons in Hin as [Hin | Hin]; [discriminate |]).
  by apply elem_of_nil in Hin.
Qed.

(** On a pattern without special characters the instance is
    case-insensitive substring match. *)
Lemma compile_plain s :
  Forall (λ a, Regex.is_meta a = false) (list_ascii_of_string s) →
  ∃ m, Regex.compile s = Some m ∧ ∀ n, m n = true ↔ substring_i s n.
Proof.
  intros Hs. unfold Regex.compile. rewrite parse_plain by done. simpl.
  eexists. split; [done |]. intros n. apply search_plain.
Qed.

(** ** The top reviews *)

Lemma Sorted_take {A} (R : relation A) n l :
  Sorted R l → Sorted R (take n l).
Proof.
  intros H. revert n. induction H as [| x l Hl IH Hhd]; intros n.
  - by destruct n.
  - destruct n as [| n]; simpl; [constructor |].
    constructor; [apply IH |].
    destruct Hhd as [| y l' Hxy]; destruct n; simpl; by constructor.
Qed.

Lemma Sorted_fmap_Forall {A B} (R1 : relation A) (R2 : relation B)
    (P : A → Prop) (f : A → B) l :
  (∀ x y, P x → P y → R1 x y → R2 (f x) (f y)) →
  Forall P l → Sorted R1 l → Sorted R2 (f <$> l).
Proof.
  intros Hf HP H. induction H as [| x l Hl IH Hhd]; simpl; [constructor |].
  apply Forall_cons in HP as [Hx HP]. constructor; [by apply IH |].
  destruct Hhd as [| y l' Hxy]; simpl; [constructor |].
  apply Forall_cons in HP as [Hy _]. constructor. by apply Hf.
Qed.

(** What [GET /reviews/top] does guarantee: a bare array of at most 6
    stored reviews, ordered by the stored rating in BSON order, ratings
    coerced; when every stored rating is a number the answer is
    non-increasing in rating. *)
Lemma get_reviews_top_bounded st :
  ∃ l,
    get_reviews_top st = {| status := 200; sent := DocArray (with_rating <$> l) |}
    ∧ (length (with_rating <$> l) <= 6)%nat
    ∧ l ⊆ reviewCollection st
    ∧ Sorted (desc_by "rating") l
    ∧ (Forall (λ d : doc, ∃ z, d !! "rating" = Some (VNum (Int z)))
              (reviewCollection st) →
       non_increasing (with_rating <$> l)).
Proof.
  exists (limit 6 (sort_desc "rating" (reviewCollection st))).
  unfold get_reviews_top. rewrite find_all.
  assert (Hsub : limit 6 (sort_desc "rating" (reviewCollection st))
                 ⊆ reviewCollection st).
  { intros d Hd. unfold limit in Hd. apply elem_of_take in Hd as (i & Hd & _).
    apply list_elem_of_lookup_2 in Hd. by rewrite sort_desc_Permutation in Hd. }
  split; [done |]. split; [| split; [| split]].
  - rewrite length_fmap. apply limit_length.
  - done.
  - apply Sorted_take, sort_desc_Sorted.
  - intros Hnum. unfold non_increasing.
    apply Sorted_fmap_Forall with
      (R1 := desc_by "rating")
      (P := λ d : doc, ∃ z, d !! "rating" = Some (VNum (Int z))).
    + intros d1 d2 [z1 H1] [z2 H2] Hd. unfold desc_by, sort_key in Hd.
      rewrite !with_rating_rating, H1, H2. rewrite H1, H2 in Hd. simpl in *.
      by apply Z.leb_le.
    + apply Forall_forall. intros d Hd.
      by apply (proj1 (Forall_forall _ _) Hnum), Hsub.
    + apply Sorted_take, sort_desc_Sorted.
Qed.

(** C3 on the code. Two reviews created through [POST /reviews], one with
    the rating ["1"] as a string and one with the rating 5 as a number:
    [GET /reviews/top] sorts the stored values, where every string is above
    every number, and answers with the ratings 1, 5 in that order, which
    is not non-increasing. *)
Theorem get_reviews_top_mixed_ratings :
  ∃ l,
    get_reviews_top mixed_ratings = {| status := 200; sent := DocArray l |}
    ∧ (λ d : doc, d !! "rating") <$> l
      = [Some (VNum (Int 1)); Some (VNum (Int 5))]
    ∧ ¬ non_increasing l.
Proof.
  eexists. split; [vm_compute; reflexivity |]. split; [reflexivity |].
  unfold non_increasing. intros H.
  apply Sorted_inv in H as [_ Hhd]. apply HdRel_inv in Hhd.
  vm_compute in Hhd. by apply Hhd.
Qed.

(** * Further properties of the handlers *)

(** ** Deleting *)

Lemma deleteOne_no_match o c :
  (∀ d, d ∈ c → d !! "_id" ≠ Some (VId o)) → deleteOne o c = (0%nat, c).
Proof.
  induction c as [| d c IH]; intros Hno; simpl; [done |].
  rewrite bool_decide_eq_false_2 by (apply Hno; left).
  rewrite IH; [done |]. intros e He. apply Hno. by right.
Qed.

Lemma deleteOne_first_match o pre d post :
  d !! "_id" = Some (VId o) →
  (∀ e, e ∈ pre → e !! "_id" ≠ Some (VId o)) →
  deleteOne o (pre ++ d :: post)%list = (1%nat, (pre ++ post)%list).
Proof.
  intros Hd. induction pre as [| e pre IH]; intros Hno; simpl.
  - by rewrite bool_decide_eq_true_2.
  - rewrite bool_decide_eq_false_2 by (apply Hno; left).
    by rewrite IH by (intros e' He'; apply Hno; by right).
Qed.

(** The first document with a given identifier, when there is one. *)
Lemma first_with_id o (c : list doc) :
  (∀ d, d ∈ c → d !! "_id" ≠ Some (VId o))
  ∨ ∃ pre d post,
      c = (pre ++ d :: post)%list ∧ d !! "_id" = Some (VId o)
      ∧ ∀ e, e ∈ pre → e !! "_id" ≠ Some (VId o).
Proof.
  induction c as [| d c IH].
  - left. intros d Hd. by apply elem_of_nil in Hd.
  - destruct (decide (d !! "_id" = Some (VId o))) as [Hd | Hd].
    + right. exists [], d, c. split; [done |]. split; [done |].
      intros e He. by apply elem_of_nil in He.
    + destruct IH as [Hno | (pre & d' & post & -> & Hd' & Hpre)].
      * left. intros e He. apply elem_of_cons in He as [-> | He]; auto.
      * right. exists (d :: pre), d', post. split; [done |]. split; [done |].
        intros e He. apply elem_of_cons in He as [-> | He]; auto.
Qed.

(** [DELETE /reviews/:id]: 500 for an identifier that does not parse, 404
    when no review has it, and otherwise 200 with the first review of that
    identifier removed, the other reviews kept in order; the favorites are
    never touched, also those that refer to the deleted review. *)
Theorem delete_review_outcomes id st :
  favoritesCollection (delete_review id st).2 = favoritesCollection st
  ∧ (ObjectId id = None →
       delete_review id st = ({| status := 500; sent := ErrorPage |}, st))
  ∧ (∀ o, ObjectId id = Some o →
       (∀ d, d ∈ reviewCollection st → d !! "_id" ≠ Some (VId o)) →
       delete_review id st =
         ({| status := 404; sent := Message "Review not found" |}, st))
  ∧ (∀ o pre d post, ObjectId id = Some o →
       reviewCollection st = (pre ++ d :: post)%list →
       d !! "_id" = Some (VId o) →
       (∀ e, e ∈ pre → e !! "_id" ≠ Some (VId o)) →
       delete_review id st =
         ({| status := 200; sent := Message "Review deleted" |},
          set_reviews st (pre ++ post)%list)).
Proof.
  split; [| split; [| split]].
  - unfold delete_review. destruct (ObjectId id); [| done].
    destruct (deleteOne _ _) as [count c]. by destruct (count =? 0)%nat.
  - unfold delete_review. by intros ->.
  - intros o Ho Hno. unfold delete_review.
    rewrite Ho, deleteOne_no_match by done. simpl. by rewrite set_reviews_same.
  - intros o pre d post Ho Hc Hd Hpre. unfold delete_review.
    by rewrite Ho, Hc, deleteOne_first_match.
Qed.

Lemma delete_review_outcomes_witness :
  delete_review "000000000000000000000001" two_favorites =
    ({| status := 200; sent := Message "Review deleted" |},
     set_reviews two_favorites [])
  ∧ length (favoritesCollection
              (delete_review "000000000000000000000001" two_favorites).2)
    = 2%nat.
Proof.
  pose proof (delete_review_outcomes "000000000000000000000001" two_favorites)
    as (Hfav & _ & _ & Hdel).
  split.
  - apply (Hdel 1%N [] (<["_id" := VId 1]> (review_doc (taco (JNum 4)) 100)) []).
    + reflexivity.
    + vm_compute. reflexivity.
    + vm_compute. reflexivity.
    + intros e He. by apply elem_of_nil in He.
  - rewrite Hfav. reflexivity.
Defined.

Lemma set_favorites_same st : set_favorites st (favoritesCollection st) = st.
Proof. by destruct st. Qed.

(** [DELETE /favorites/:id]: the same three outcomes on the favorites; the
    reviews are never touched. *)
Theorem delete_favorite_outcomes id st :
  reviewCollection (delete_favorite id st).2 = reviewCollection st
  ∧ (ObjectId id = None →
       delete_favorite id st = ({| status := 500; sent := ErrorPage |}, st))
  ∧ (∀ o, ObjectId id = Some o →
       (∀ d, d ∈ favoritesCollection st → d !! "_id" ≠ Some (VId o)) →
       delete_favorite id st =
         ({| status := 404; sent := Message "Favorite not found" |}, st))
  ∧ (∀ o pre d post, ObjectId id = Some o →
       favoritesCollection st = (pre ++ d :: post)%list →
       d !! "_id" = Some (VId o) →
       (∀ e, e ∈ pre → e !! "_id" ≠ Some (VId o)) →
       delete_favorite id st =
         ({| status := 200; sent := Message "Favorite removed" |},
          set_favorites st (pre ++ post)%list)).
Proof.
  split; [| split; [| split]].
  - unfold delete_favorite. destruct (ObjectId id); [| done].
    destruct (deleteOne _ _) as [count c]. by destruct (count =? 0)%nat.
  - unfold delete_favorite. by intros ->.
  - intros o Ho Hno. unfold delete_favorite.
    rewrite Ho, deleteOne_no_match by done. simpl.
    by rewrite set_favorites_same.
  - intros o pre d post Ho Hc Hd Hpre. unfold delete_favorite.
    by rewrite Ho, Hc, deleteOne_first_match.
Qed.

Lemma delete_favorite_outcomes_witness :
  delete_favorite "000000000000000000000009" two_favorites =
    ({| status := 404; sent := Message "Favorite not found" |}, two_favorites)
  ∧ delete_favorite "nine" two_favorites =
      ({| status := 500; sent := ErrorPage |}, two_favorites).
Proof.
  pose proof (delete_favorite_outcomes "000000000000000000000009" two_favorites)
    as (_ & _ & Hmiss & _).
  pose proof (delete_favorite_outcomes "nine" two_favorites)
    as (_ & Hbad & _).
  split.
  - apply (Hmiss 9%N); [reflexivity |].
    intros d Hd. vm_compute in Hd.
    repeat (apply elem_of_cons in Hd as [-> | Hd]; [vm_compute; discriminate |]).
    by apply elem_of_nil in Hd.
  - apply Hbad. reflexivity.
Defined.

(** ** Identifiers *)

Lemma ids_insertOne d c id c' :
  insertOne d c = Some (id, c') →
  ids c' = (ids c ++ [Some id])%list ∧ Some id ∉ ids c.
Proof.
  intros (_ & -> & Hno)%insertOne_Some. split.
  - unfold ids. rewrite fmap_app. simpl. by rewrite lookup_insert_eq.
  - unfold ids. intros (e & He & Hin)%list_elem_of_fmap.
    by destruct (Hno e Hin).
Qed.

Lemma apply_set_id accepts upd d d' :
  apply_set accepts upd d = Some d' → d' !! "_id" = d !! "_id".
Proof.
  intros (-> & _ & _ & [Hn | He])%apply_set_Some.
  - by apply lookup_union_r.
  - destruct (upd !! "_id") as [v |] eqn:E.
    + rewrite <- He. by apply lookup_union_Some_l.
    + by apply lookup_union_r.
Qed.

Lemma ids_updateOne accepts o upd c count c' :
  updateOne accepts o upd c = Some (count, c') → ids c' = ids c.
Proof.
  revert count c'. induction c as [| d c IH]; intros count c'; simpl.
  - by intros [= <- <-].
  - case_bool_decide.
    + destruct (apply_set accepts upd d) as [d' |] eqn:E; [| done].
      intros [= <- <-]. unfold ids. simpl.
      by rewrite (apply_set_id _ _ _ _ E).
    + destruct (updateOne accepts o upd c) as [[k c''] |] eqn:E; [| done].
      intros [= <- <-]. unfold ids in *. simpl. f_equal. by eapply IH.
Qed.

Lemma ids_deleteOne o c : ids (deleteOne o c).2 `sublist_of` ids c.
Proof.
  unfold ids. induction c as [| d c IH]; simpl; [done |].
  case_bool_decide; simpl.
  - by apply sublist_cons.
  - destruct (deleteOne o c) as [count c']. simpl in *. by apply sublist_skip.
Qed.

Lemma ids_put_review isEmail language_ok id b st :
  ids (reviewCollection (put_review isEmail language_ok id b st).2)
  = ids (reviewCollection st).
Proof.
  unfold put_review, handleValidationErrors.
  destruct (validationResult _ _ _); [| done].
  destruct (ObjectId id); [| done].
  destruct (updateOne _ _ _) as [[count c] |] eqn:E; [| done].
  apply ids_updateOne in E. by destruct (count =? 0)%nat.
Qed.

Lemma delete_favorite_keeps_reviews id st :
  reviewCollection (delete_favorite id st).2 = reviewCollection st.
Proof.
  unfold delete_favorite. destruct (ObjectId id); [| done].
  destruct (deleteOne _ _) as [count c]. by destruct (count =? 0)%nat.
Qed.

(** [PUT /reviews/:id] never adds, removes, reorders or re-identifies a
    review, whatever the identifier and the body, and never touches the
    favorites. *)
Theorem put_review_keeps_ids isEmail language_ok id b st :
  ids (reviewCollection (put_review isEmail language_ok id b st).2)
  = ids (reviewCollection st)
  ∧ length (reviewCollection (put_review isEmail language_ok id b st).2)
    = length (reviewCollection st)
  ∧ favoritesCollection (put_review isEmail language_ok id b st).2
    = favoritesCollection st.
Proof.
  pose proof (ids_put_review isEmail language_ok id b st) as Hi.
  split; [done |]. split.
  - apply (f_equal length) in Hi. unfold ids in Hi.
    by rewrite !length_fmap in Hi.
  - apply (review_routes_keep_favorites isEmail language_ok 0 id b st).
Qed.

Lemma post_reviews_ids_unique isEmail language_ok now b st :
  ids_unique (reviewCollection st) →
  ids_unique (reviewCollection (post_reviews isEmail language_ok now b st).2).
Proof.
  intros Hu. unfold post_reviews, handleValidationErrors.
  destruct (validationResult _ _ _); [| done].
  destruct (insert_review _ _ _) as [[id c] |] eqn:E; [| done].
  apply insert_review_Some in E as [_ E].
  apply ids_insertOne in E as [Hc Hid]. simpl. unfold ids_unique.
  rewrite Hc. apply NoDup_app. split; [done |]. split.
  - intros x Hx Hin. apply list_elem_of_singleton in Hin. by subst.
  - apply NoDup_singleton.
Qed.

Lemma post_favorites_ids_unique isEmail now b st :
  ids_unique (favoritesCollection st) →
  ids_unique (favoritesCollection (post_favorites isEmail now b st).2).
Proof.
  intros Hu. unfold post_favorites, handleValidationErrors.
  destruct (validationResult _ _ _); [| done].
  destruct (findOne _ _); [done |].
  destruct (insertOne _ _) as [[id c] |] eqn:E; [| done].
  apply ids_insertOne in E as [Hc Hid]. simpl. unfold ids_unique.
  rewrite Hc. apply NoDup_app. split; [done |]. split.
  - intros x Hx Hin. apply list_elem_of_singleton in Hin. by subst.
  - apply NoDup_singleton.
Qed.

Lemma deleteOne_ids_unique o c :
  ids_unique c → ids_unique (deleteOne o c).2.
Proof.
  unfold ids_unique. intros H. eapply sublist_NoDup; [exact H |].
  apply ids_deleteOne.
Qed.

Lemma serve_ids_unique isEmail language_ok regex_i now req st out :
  serve isEmail language_ok regex_i now req st = Some out →
  ids_unique (reviewCollection st) ∧ ids_unique (favoritesCollection st) →
  ids_unique (reviewCollection out.2) ∧ ids_unique (favoritesCollection out.2).
Proof.
  intros Hs [Hr Hf]. destruct req; simpl in Hs; simplify_eq/=; try done.
  - split; [by apply post_reviews_ids_unique |].
    by rewrite (proj1 (review_routes_keep_favorites isEmail language_ok
                         now "" b st)).
  - unfold ids_unique. rewrite ids_put_review.
    by rewrite (proj1 (proj2 (review_routes_keep_favorites isEmail language_ok
                                now id b st))).
  - split.
    + unfold delete_review. destruct (ObjectId id) as [o |]; [| done].
      pose proof (deleteOne_ids_unique o _ Hr) as Hd.
      destruct (deleteOne o _) as [count c]. by destruct (count =? 0)%nat.
    + by rewrite (proj2 (proj2 (review_routes_keep_favorites isEmail
                                  language_ok now id ∅ st))).
  - split; [| by apply post_favorites_ids_unique].
    unfold post_favorites, handleValidationErrors.
    destruct (validationResult _ _ _); [| done].
    destruct (findOne _ _); [done |]. by destruct (insertOne _ _) as [[] |].
  - split; [by rewrite delete_favorite_keeps_reviews |].
    unfold delete_favorite. destruct (ObjectId id) as [o |]; [| done].
    pose proof (deleteOne_ids_unique o _ Hf) as Hd.
    destruct (deleteOne o _) as [count c]. by destruct (count =? 0)%nat.
Qed.

(** Whatever requests are served, one at a time, from the empty database,
    no two reviews share an identifier and no two favorites do. *)
Theorem reachable_ids_unique isEmail language_ok regex_i reqs st :
  run isEmail language_ok regex_i reqs empty_db = Some st →
  ids_unique (reviewCollection st) ∧ ids_unique (favoritesCollection st).
Proof.
  assert (Hgen : ∀ st0,
            run isEmail language_ok regex_i reqs st0 = Some st →
            ids_unique (reviewCollection st0) ∧ ids_unique (favoritesCollection st0) →
            ids_unique (reviewCollection st) ∧ ids_unique (favoritesCollection st)).
  { induction reqs as [| [now req] reqs IH]; intros st0 Hr Hu; simpl in Hr.
    - by injection Hr as <-.
    - destruct (serve isEmail language_ok regex_i now req st0) as [out |]
        eqn:Hs; [| done].
      simpl in Hr. eapply IH; [exact Hr |]. by eapply serve_ids_unique. }
  intros Hr. apply (Hgen empty_db Hr). split; apply NoDup_nil_2.
Qed.

Lemma reachable_ids_unique_witness :
  ids_unique (reviewCollection two_favorites)
  ∧ ids_unique (favoritesCollection two_favorites).
Proof.
  apply (reachable_ids_unique Email.isEmail Text.language_ok Regex.compile
           [(100, PostReviews (taco (JNum 4)));
            (200, PostFavorites (favorite "000000000000000000000001"));
            (300, PostFavorites (favorite "bad"))]).
  vm_compute. reflexivity.
Defined.

(** ** Identifiers as hex strings *)

Lemma hex_digit_of_digit d : (d < 16)%N → Hex.digit (Hex.of_digit d) = Some d.
Proof.
  intros Hd.
  assert (H : d ∈ (N.of_nat <$> seq 0 16)).
  { apply list_elem_of_fmap. exists (N.to_nat d). split; [lia |].
    apply elem_of_seq. lia. }
  simpl in H.
  repeat (apply elem_of_cons in H as [-> | H]; [reflexivity |]).
  by apply elem_of_nil in H.
Qed.

Lemma hex_value_print k n acc a :
  Hex.value a (Hex.print k n acc)
  = Hex.value (a * 16 ^ N.of_nat k + n mod 16 ^ N.of_nat k)%N acc.
Proof.
  revert n acc. induction k as [| k IH]; intros n acc.
  - simpl. rewrite N.mod_1_r. f_equal. lia.
  - cbn [Hex.print]. rewrite IH. cbn [Hex.value].
    rewrite hex_digit_of_digit by (apply N.mod_lt; lia). f_equal.
    rewrite Nat2N.inj_succ, N.pow_succ_r'.
    rewrite (N.Div0.mod_mul_r n 16 (16 ^ N.of_nat k)). lia.
Qed.

Lemma hex_print_length k n acc :
  length (Hex.print k n acc) = (k + length acc)%nat.
Proof.
  revert n acc. induction k as [| k IH]; intros n acc; simpl; [done |].
  rewrite IH. simpl. lia.
Qed.

Lemma hex_round_trip o :
  (o < 2 ^ 96)%N → ObjectId (toHexString o) = Some o.
Proof.
  intros Ho. unfold ObjectId, toHexString.
  rewrite list_ascii_of_string_of_list_ascii, hex_print_length. simpl length.
  rewrite hex_value_print. simpl Hex.value. f_equal.
  change (16 ^ N.of_nat 24)%N with (2 ^ 96)%N.
  rewrite N.mod_small by done. lia.
Qed.

Lemma hex_digit_inv c d :
  Hex.digit c = Some d → (d < 16)%N ∧ Hex.of_digit d = Str.lower c.
Proof.
  destruct c as [[] [] [] [] [] [] [] []]; vm_compute; intros [= <-];
    (split; reflexivity).
Qed.

Lemma hex_value_snoc a l c :
  Hex.value a (l ++ [c]) =
  (m ← Hex.value a l; d ← Hex.digit c; Some (16 * m + d)%N).
Proof.
  revert a. induction l as [| x l IH]; intros a; simpl.
  - by destruct (Hex.digit c).
  - destruct (Hex.digit x); [apply IH | done].
Qed.

Lemma hex_print_value l a n rest :
  Hex.value a l = Some n →
  Hex.print (length l) n rest = ((Str.lower <$> l) ++ rest)%list.
Proof.
  revert n rest. induction l as [| c l IH] using rev_ind; intros n rest.
  - by intros [= <-].
  - rewrite hex_value_snoc.
    destruct (Hex.value a l) as [m |] eqn:Hm; [| done]. simpl.
    destruct (Hex.digit c) as [d |] eqn:Hd; [| done]. intros [= <-].
    apply hex_digit_inv in Hd as [Hlt Hc].
    rewrite length_app, Nat.add_1_r. cbn [Hex.print].
    replace ((16 * m + d) `div` 16)%N with m
      by (apply N.div_unique with d; lia).
    replace ((16 * m + d) `mod` 16)%N with d
      by (apply N.mod_unique with m; lia).
    rewrite (IH m) by done. rewrite Hc, fmap_app, <- app_assoc. done.
Qed.

(** The hex string of an identifier parses back to it, so every 96-bit
    identifier can be addressed in a path; and a string that parses is,
    up to the case of its letters, the hex string of its identifier, so
    two well-formed strings address the same document exactly when they
    agree up to case. *)
Lemma ObjectId_toHexString o s :
  ((o < 2 ^ 96)%N → ObjectId (toHexString o) = Some o)
  ∧ (ObjectId s = Some o →
       toHexString o
       = string_of_list_ascii (Str.lower <$> list_ascii_of_string s)).
Proof.
  split; [apply hex_round_trip |].
  unfold ObjectId, toHexString.
  destruct (Nat.eqb_spec (length (list_ascii_of_string s)) 24) as [Hl | Hl];
    [| done].
  intros Hv. rewrite <- Hl, (hex_print_value _ _ _ _ Hv).
  by rewrite app_nil_r.
Qed.

Lemma ObjectId_toHexString_witness :
  ObjectId (toHexString 255) = Some 255%N
  ∧ toHexString 255 = "0000000000000000000000ff".
Proof.
  destruct (ObjectId_toHexString 255 "0000000000000000000000FF") as [H1 H2].
  split; [apply H1; reflexivity |]. rewrite H2; reflexivity.
Defined.

(** ** Creating, reading and deleting compose *)

Lemma find_cons q d c :
  find q (d :: c) = if matches q d then d :: find q c else find q c.
Proof. done. Qed.

Lemma matches_by_id_false o d :
  d !! "_id" ≠ Some (VId o) → matches (by_id o) d = false.
Proof.
  intros H. destruct (matches (by_id o) d) eqn:E; [| done].
  by apply matches_by_id in E.
Qed.

Lemma findOne_snoc_other o d c :
  d !! "_id" ≠ Some (VId o) →
  findOne (by_id o) (c ++ [d])%list = findOne (by_id o) c.
Proof.
  intros Hd. unfold findOne.
  by rewrite find_snoc, matches_by_id_false, app_nil_r.
Qed.

Lemma findOne_deleteOne_other o o' c :
  o' ≠ o → findOne (by_id o') (deleteOne o c).2 = findOne (by_id o') c.
Proof.
  intros Hne. unfold findOne. induction c as [| d c IH]; [done |].
  cbn [deleteOne]. case_bool_decide as Hd.
  - cbn [snd]. rewrite find_cons, matches_by_id_false; [done |].
    rewrite Hd. congruence.
  - destruct (deleteOne o c) as [count c'] eqn:E. cbn [snd] in *.
    rewrite !find_cons. destruct (matches (by_id o') d); [done | exact IH].
Qed.

Lemma deleteOne_removes o c :
  ids_unique c → ∀ e, e ∈ (deleteOne o c).2 → e !! "_id" ≠ Some (VId o).
Proof.
  intros Hu.
  destruct (first_with_id o c) as [Hno | (pre & d & post & -> & Hd & Hpre)].
  - by rewrite deleteOne_no_match.
  - rewrite deleteOne_first_match by done. simpl. intros e He.
    apply elem_of_app in He as [He | He]; [by apply Hpre |].
    unfold ids_unique, ids in Hu. rewrite fmap_app, fmap_cons in Hu.
    apply NoDup_app in Hu as (_ & _ & Hu). apply NoDup_cons in Hu as [Hu _].
    intros Hid. apply Hu. rewrite Hd, <- Hid. by apply list_elem_of_fmap_2.
Qed.

Lemma get_review_ext s st st' :
  (∀ o, ObjectId s = Some o →
        findOne (by_id o) (reviewCollection st')
        = findOne (by_id o) (reviewCollection st)) →
  get_review s st' = get_review s st.
Proof.
  intros H. unfold get_review. destruct (ObjectId s) as [o |]; [| done].
  by rewrite (H o eq_refl).
Qed.

(** A review created from a body of JSON scalars under plain names,
    without an [_id] of its own and with no [language] field or one that
    names a language of the text search, is read back under the hex string
    of the identifier the answer returns: with its [date] the server time,
    its rating coerced and every other field as submitted. Reads of the
    other identifiers answer as before the creation. *)
Theorem create_then_read isEmail language_ok now b st :
  plain_body b →
  validationResult isEmail post_reviews_rules b = [] →
  b !! "_id" = None →
  (b !! "language" = None
   ∨ ∃ l, b !! "language" = Some (JStr l) ∧ language_ok l = true) →
  (fresh_oid (reviewCollection st) < 2 ^ 96)%N →
  let o := fresh_oid (reviewCollection st) in
  let out := post_reviews isEmail language_ok now b st in
  out.1 = {| status := 201; sent := InsertResult (VId o) |}
  ∧ (∃ review : doc,
       get_review (toHexString o) out.2 =
         {| status := 200; sent := Document review |}
       ∧ review !! "_id" = Some (VId o)
       ∧ review !! "date" = Some (VDate now)
       ∧ review !! "rating" = Some (VNum (Number (of_json <$> b !! "rating")))
       ∧ ∀ k, k ≠ "_id" → k ≠ "date" → k ≠ "rating" →
              review !! k = of_json <$> b !! k)
  ∧ (∀ s o', ObjectId s = Some o' → o' ≠ o →
       get_review s out.2 = get_review s st).
Proof.
  intros _ Hv Hb Hlang Hlt o out.
  assert (Hout : out = ({| status := 201; sent := InsertResult (VId o) |},
                        set_reviews st (reviewCollection st
                          ++ [<["_id" := VId o]> (review_doc b now)])%list)).
  { unfold out. rewrite post_reviews_validated by done.
    rewrite insert_review_accepted by (by apply text_index_language).
    rewrite insertOne_generated; [done |]. by rewrite review_doc_id, Hb. }
  rewrite Hout. simpl. split; [done |]. split.
  - exists (with_rating (<["_id" := VId o]> (review_doc b now))).
    unfold get_review. rewrite hex_round_trip by done. simpl.
    rewrite findOne_inserted by (intros e He; by apply fresh_oid_unused).
    split; [done |]. unfold review_doc.
    split; [| split; [| split]].
    + by rewrite with_rating_other, lookup_insert_eq.
    + rewrite with_rating_other by done.
      by rewrite lookup_insert_ne, lookup_insert_eq.
    + rewrite with_rating_rating. by rewrite !lookup_insert_ne, lookup_fmap.
    + intros k H1 H2 H3. rewrite with_rating_other by done.
      by rewrite !lookup_insert_ne, lookup_fmap.
  - intros s o' Hs Hne. apply get_review_ext. intros o'' Ho''. simpl.
    apply findOne_snoc_other. rewrite lookup_insert_eq. congruence.
Qed.

Lemma create_then_read_witness :
  ∃ review : doc,
    get_review "000000000000000000000002"
      (post_reviews Email.isEmail Text.language_ok 200 (taco (JStr "3"))
         one_review).2
    = {| status := 200; sent := Document review |}
    ∧ review !! "rating" = Some (VNum (Int 3)).
Proof.
  destruct (create_then_read Email.isEmail Text.language_ok 200
              (taco (JStr "3")) one_review)
    as (_ & (review & Hget & _ & _ & Hr & _) & _).
  - unfold plain_body. apply (bool_decide_unpack _). vm_compute. exact I.
  - vm_compute. reflexivity.
  - reflexivity.
  - left. reflexivity.
  - reflexivity.
  - exists review. split; [exact Hget |]. rewrite Hr. reflexivity.
Defined.

(** With distinct identifiers, a deleted review is gone: reading it and
    deleting it again both answer 404, while reads of the other
    identifiers answer as before the deletion. *)
Theorem delete_then_read id o st :
  ObjectId id = Some o →
  ids_unique (reviewCollection st) →
  let st' := (delete_review id st).2 in
  get_review id st' = {| status := 404; sent := Message "Review not found" |}
  ∧ delete_review id st' =
      ({| status := 404; sent := Message "Review not found" |}, st')
  ∧ (∀ s o', ObjectId s = Some o' → o' ≠ o →
       get_review s st' = get_review s st).
Proof.
  intros Ho Hu st'.
  assert (Hst' : reviewCollection st' = (deleteOne o (reviewCollection st)).2).
  { unfold st', delete_review. rewrite Ho.
    destruct (deleteOne o _) as [count c]. by destruct (count =? 0)%nat. }
  assert (Hgone : ∀ e, e ∈ reviewCollection st' → e !! "_id" ≠ Some (VId o))
    by (rewrite Hst'; by apply deleteOne_removes).
  split; [| split].
  - unfold get_review. by rewrite Ho, findOne_by_id_None.
  - unfold delete_review. rewrite Ho, deleteOne_no_match by done. simpl.
    by rewrite set_reviews_same.
  - intros s o' Hs Hne. apply get_review_ext. intros o'' Ho''.
    rewrite Hst'. apply findOne_deleteOne_other. congruence.
Qed.

Lemma delete_then_read_witness :
  get_review "000000000000000000000001"
    (delete_review "000000000000000000000001" one_review).2
  = {| status := 404; sent := Message "Review not found" |}.
Proof.
  apply (delete_then_read "000000000000000000000001" 1%N one_review).
  - reflexivity.
  - unfold ids_unique.
    assert (ids (reviewCollection one_review) = [Some (VId 1)]) as ->
      by (vm_compute; reflexivity).
    apply NoDup_singleton.
Defined.

(** Deleting a review does not cascade: a favorite of it stays stored,
    and the join then finds no review for it. *)
Theorem delete_review_orphans_favorites id s o st fav :
  ObjectId id = Some o → ObjectId s = Some o →
  ids_unique (reviewCollection st) →
  fav ∈ favoritesCollection st → fav !! "reviewId" = Some (VStr s) →
  let st' := (delete_review id st).2 in
  fav ∈ favoritesCollection st'
  ∧ populate (reviewCollection st') fav = Some (delete "review" fav, None).
Proof.
  intros Ho Hs Hu Hfav Hr st'.
  assert (Hst' : reviewCollection st' = (deleteOne o (reviewCollection st)).2).
  { unfold st', delete_review. rewrite Ho.
    destruct (deleteOne o _) as [count c]. by destruct (count =? 0)%nat. }
  split.
  - unfold st'.
    by rewrite (proj2 (proj2 (review_routes_keep_favorites (λ _, true)
                                (λ _, true) 0 id ∅ st))).
  - unfold populate. rewrite Hr, (lookup_review_wellformed s o) by done.
    rewrite findOne_by_id_None; [done |].
    rewrite Hst'. by apply deleteOne_removes.
Qed.

Lemma delete_review_orphans_favorites_witness :
  let fav : doc := <["_id" := VId 1]>
                     (favorite_doc (VStr "a@b.com")
                        (VStr "000000000000000000000001") 200) in
  let st := (post_favorites Email.isEmail 200
               (favorite "000000000000000000000001") one_review).2 in
  let st' := (delete_review "000000000000000000000001" st).2 in
  fav ∈ favoritesCollection st'
  ∧ populate (reviewCollection st') fav = Some (delete "review" fav, None).
Proof.
  intros fav st st'.
  apply (delete_review_orphans_favorites
           "000000000000000000000001" "000000000000000000000001" 1%N st fav).
  - reflexivity.
  - reflexivity.
  - unfold ids_unique.
    assert (ids (reviewCollection st) = [Some (VId 1)]) as ->
      by (vm_compute; reflexivity).
    apply NoDup_singleton.
  - vm_compute. left.
  - vm_compute. reflexivity.
Defined.

(** ** Updating twice *)

Lemma apply_set_idem accepts upd d d' :
  apply_set accepts upd d = Some d' → apply_set accepts upd d' = Some d'.
Proof.
  intros H. pose proof (apply_set_id _ _ _ _ H) as Hid.
  apply apply_set_Some in H as (Hd' & Ha & Hk & Hi).
  assert (Hu : upd ∪ d' = d')
    by (by rewrite Hd', (assoc_L (∪)), (idemp_L (∪))).
  rewrite apply_set_plain by done. rewrite Hu.
  rewrite (bool_decide_eq_true_2 (d' = d')) by done. simpl.
  destruct (upd !! "_id") as [v |] eqn:E; [| done].
  destruct Hi as [Hi | Hi]; [done |].
  by rewrite bool_decide_eq_true_2 by (by rewrite Hid).
Qed.

Lemma updateOne_idem accepts o upd c count c' :
  updateOne accepts o upd c = Some (count, c') →
  updateOne accepts o upd c' = Some (count, c').
Proof.
  revert count c'. induction c as [| d c IH]; intros count c'; cbn [updateOne].
  - by intros [= <- <-].
  - case_bool_decide as Hd.
    + destruct (apply_set accepts upd d) as [d' |] eqn:E; [| done]. simpl.
      intros [= <- <-]. cbn [updateOne].
      rewrite bool_decide_eq_true_2
        by (by rewrite (apply_set_id _ _ _ _ E)).
      by rewrite (apply_set_idem _ _ _ _ E).
    + destruct (updateOne accepts o upd c) as [[k c''] |] eqn:E; [| done]. simpl.
      intros [= <- <-]. cbn [updateOne].
      rewrite bool_decide_eq_false_2 by done.
      by rewrite (IH _ _ eq_refl).
Qed.

(** [PUT /reviews/:id] is idempotent: sending the same request again gets
    the same answer and leaves the state the first one produced. *)
Theorem put_review_idempotent isEmail language_ok id b st :
  put_review isEmail language_ok id b (put_review isEmail language_ok id b st).2
  = put_review isEmail language_ok id b st.
Proof.
  unfold put_review, handleValidationErrors.
  destruct (validationResult isEmail put_reviews_rules b) eqn:Hv; [| done].
  destruct (ObjectId id) as [o |]; [| done].
  destruct (updateOne (text_index_accepts language_ok) o (of_json <$> b)
              (reviewCollection st)) as [[count c] |] eqn:E.
  - pose proof (updateOne_idem _ _ _ _ _ _ E) as E'.
    destruct (count =? 0)%nat eqn:Hc; simpl; by rewrite E', Hc.
  - simpl. by rewrite E.
Qed.

(** ** Answers and writes *)

Lemma updateOne_zero accepts o upd c c' :
  updateOne accepts o upd c = Some (0%nat, c') → c' = c.
Proof.
  revert c'. induction c as [| d c IH]; intros c'; cbn [updateOne].
  - by intros [= <-].
  - case_bool_decide.
    + by destruct (apply_set accepts upd d).
    + destruct (updateOne accepts o upd c) as [[k c''] |] eqn:E; [| done]. simpl.
      intros [= -> <-]. by rewrite (IH _ eq_refl).
Qed.

Lemma deleteOne_zero o c c' : deleteOne o c = (0%nat, c') → c' = c.
Proof.
  revert c'. induction c as [| d c IH]; intros c'; cbn [deleteOne].
  - by intros [= <-].
  - case_bool_decide; [done |].
    destruct (deleteOne o c) as [k c''] eqn:E.
    intros [= -> <-]. by rewrite (IH _ eq_refl).
Qed.

(** An answer with an error status (400, 404, 500) comes with no write:
    both collections are as they were. Only a 200 or a 201 can go with a
    change of the stored state. *)
Theorem error_answers_never_write isEmail language_ok regex_i now req st out :
  serve isEmail language_ok regex_i now req st = Some out →
  400 <= status out.1 → out.2 = st.
Proof.
  intros Hs Hst. destruct req; simpl in Hs; simplify_eq/=; try done.
  - revert Hst. unfold post_reviews, handleValidationErrors.
    destruct (validationResult _ _ _); [| done].
    destruct (insert_review _ _ _) as [[i c] |]; [simpl; lia | done].
  - revert Hst. unfold put_review, handleValidationErrors.
    destruct (validationResult _ _ _); [| done].
    destruct (ObjectId id); [| done].
    destruct (updateOne _ _ _) as [[count c] |] eqn:E; [| done].
    destruct count as [| k]; simpl; [| lia].
    intros _. apply updateOne_zero in E as ->. apply set_reviews_same.
  - revert Hst. unfold delete_review. destruct (ObjectId id); [| done].
    destruct (deleteOne _ _) as [count c] eqn:E.
    destruct count as [| k]; simpl; [| lia].
    intros _. apply deleteOne_zero in E as ->. apply set_reviews_same.
  - revert Hst. unfold post_favorites, handleValidationErrors.
    destruct (validationResult _ _ _); [| done].
    destruct (findOne _ _); [done |].
    destruct (insertOne _ _) as [[i c] |]; [simpl; lia | done].
  - revert Hst. unfold delete_favorite. destruct (ObjectId id); [| done].
    destruct (deleteOne _ _) as [count c] eqn:E.
    destruct count as [| k]; simpl; [| lia].
    intros _. apply deleteOne_zero in E as ->. apply set_favorites_same.
Qed.

Lemma error_answers_never_write_witness :
  (put_review Email.isEmail Text.language_ok "000000000000000000000007"
     (<["rating" := JNum 2]> ∅) one_review).2 = one_review.
Proof.
  apply (error_answers_never_write Email.isEmail Text.language_ok Regex.compile 0
           (PutReview "000000000000000000000007" (<["rating" := JNum 2]> ∅))
           one_review).
  - reflexivity.
  - vm_compute. discriminate.
Defined.

(** The validation answer, [{errors: [...]}], is sent exactly when the
    body violates a rule the route declares: no handler sends it, and a
    route without rules never does. *)
Theorem validation_answer_exactly isEmail language_ok regex_i now req st out :
  serve isEmail language_ok regex_i now req st = Some out →
  (∃ errs, sent out.1 = Errors errs)
  ↔ ∃ r, r ∈ rules_of req ∧ violates isEmail (body_of req) r = true.
Proof.
  intros Hs. split.
  - intros [errs He].
    destruct (validationResult isEmail (rules_of req) (body_of req))
      as [| v vs] eqn:Hv.
    + exfalso. revert He.
      destruct req; simpl in Hs, Hv; simplify_eq/=; try done.
      * unfold get_reviews. by destruct (reviews_query _ _ _).
      * unfold get_review. destruct (ObjectId id); [| done].
        by destruct (findOne _ _).
      * rewrite post_reviews_validated by done.
        by destruct (insert_review _ _ _) as [[] |].
      * rewrite put_review_validated by done.
        destruct (ObjectId id); [| done].
        destruct (updateOne _ _ _) as [[count c] |]; [| done].
        by destruct (count =? 0)%nat.
      * unfold delete_review. destruct (ObjectId id); [| done].
        destruct (deleteOne _ _) as [count c]. by destruct (count =? 0)%nat.
      * rewrite post_favorites_validated by done.
        by destruct (findOne _ _).
      * unfold get_favorites. by destruct (mapM _ _).
      * unfold delete_favorite. destruct (ObjectId id); [| done].
        destruct (deleteOne _ _) as [count c]. by destruct (count =? 0)%nat.
    + assert (Hin : v ∈ validationResult isEmail (rules_of req) (body_of req))
        by (rewrite Hv; left).
      apply elem_of_validationResult in Hin as (r & Hr & Hvi & _). eauto.
  - intros (r & Hr & Hvi).
    exists (validationResult isEmail (rules_of req) (body_of req)).
    destruct req; simpl in Hr; try (by apply elem_of_nil in Hr);
      simpl in Hs; simplify_eq/=;
      [unfold post_reviews | unfold put_review | unfold post_favorites];
      by rewrite (handleValidationErrors_rejects _ _ _ _ _ r).
Qed.

Lemma validation_answer_exactly_witness :
  ¬ ∃ errs,
      sent (post_reviews Email.isEmail Text.language_ok 100 (taco (JNum 4))
              empty_db).1
      = Errors errs.
Proof.
  intros H.
  apply (validation_answer_exactly Email.isEmail Text.language_ok Regex.compile 100
           (PostReviews (taco (JNum 4))) empty_db _ eq_refl)
    in H as (r & Hr & Hv).
  simpl in Hr. unfold post_reviews_rules in Hr.
  repeat (apply elem_of_cons in Hr as [-> | Hr]; [vm_compute in Hv; discriminate |]).
  by apply elem_of_nil in Hr.
Defined.

(** ** The integer check *)

(** A character of one byte that is not white space. *)
Lemma digit_not_ws a :
  Str.is_digit a = true → Str.is_ws a = false ∧ (N_of_ascii a < 128)%N.
Proof.
  destruct a as [[] [] [] [] [] [] [] []]; vm_compute; try done; by split.
Qed.

Lemma ws3_bytes a b c :
  Str.ws3 a b c = true → (225 <= a)%N ∧ (128 <= c)%N.
Proof.
  unfold Str.ws3.
  rewrite !orb_true_iff, !andb_true_iff, !orb_true_iff, !andb_true_iff,
    !N.eqb_eq, !N.leb_le. lia.
Qed.

Lemma ws_len_ascii a l :
  Str.is_ws a = false → (N_of_ascii a < 128)%N → Str.ws_len (a :: l) = 0%nat.
Proof.
  intros Hw Ha. unfold Str.ws_len. rewrite Hw.
  destruct l as [| b l]; [done |].
  rewrite (proj2 (N.eqb_neq _ 194)) by lia. simpl.
  destruct l as [| c l]; [done |].
  destruct (Str.ws3 _ _ _) eqn:E; [| done]. apply ws3_bytes in E. lia.
Qed.

Lemma ws_len_back_ascii c r :
  Str.is_ws c = false → (N_of_ascii c < 128)%N →
  Str.ws_len_back (c :: r) = 0%nat.
Proof.
  intros Hw Hc. unfold Str.ws_len_back. rewrite Hw.
  destruct r as [| b r]; [done |].
  rewrite (proj2 (N.eqb_neq _ 160)), andb_false_r by lia.
  destruct r as [| a r]; [done |].
  destruct (Str.ws3 _ _ _) eqn:E; [| done]. apply ws3_bytes in E. lia.
Qed.

Lemma drop_ws_stop len fuel l : len l = 0%nat → Str.drop_ws len fuel l = l.
Proof. intros H. destruct fuel; simpl; [done |]. by rewrite H. Qed.

(** A text that starts and ends with a one-byte character that is not
    white space is its own trim. *)
Lemma trim_id l :
  Forall (λ a, Str.is_ws a = false ∧ (N_of_ascii a < 128)%N) l →
  Str.trim (string_of_list_ascii l) = string_of_list_ascii l.
Proof.
  intros H. unfold Str.trim. rewrite list_ascii_of_string_of_list_ascii.
  rewrite (drop_ws_stop Str.ws_len).
  - rewrite drop_ws_stop; [by rewrite rev_involutive |].
    apply Forall_rev in H. destruct H as [| c r [Hw Hc] _]; [done |].
    by apply ws_len_back_ascii.
  - destruct H as [| a l' [Hw Ha] _]; [done |]. by apply ws_len_ascii.
Qed.

(** What the pattern [[-+]?[0-9]+] accepts. *)
Lemma signed_digits_Some l z :
  Str.signed_digits l = Some z ↔
  ∃ ds, ds ≠ [] ∧ forallb Str.is_digit ds = true
        ∧ ((l = ds ∧ z = Str.digits_val ds)
           ∨ (l = "+"%char :: ds ∧ z = Str.digits_val ds)
           ∨ (l = "-"%char :: ds ∧ z = - Str.digits_val ds)).
Proof.
  assert (Hun : ∀ ds z',
    match ds with
    | [] => None
    | _ => if forallb Str.is_digit ds then Some (Str.digits_val ds) else None
    end = Some z'
    ↔ ds ≠ [] ∧ forallb Str.is_digit ds = true ∧ z' = Str.digits_val ds).
  { intros ds z'. destruct ds as [| a ds]; [split; [done | by intros [? _]] |].
    destruct (forallb Str.is_digit (a :: ds)); split.
    - intros [= <-]. done.
    - intros (_ & _ & ->). done.
    - done.
    - by intros (_ & ? & _). }
  destruct l as [| a l].
  { split; [done |]. intros (ds & Hne & _ & [[<- _] | [[? _] | [? _]]]); done. }
  destruct (decide (a = "-"%char)) as [-> | Hminus].
  { change (Str.signed_digits ("-"%char :: l)) with
      (Z.opp <$> match l with
                 | [] => None
                 | _ => if forallb Str.is_digit l
                        then Some (Str.digits_val l) else None
                 end).
    rewrite fmap_Some. split.
    - intros (z' & Hz & ->). apply Hun in Hz as (Hne & Hd & ->).
      exists l. split; [done |]. split; [done |]. right. right. done.
    - intros (ds & Hne & Hd & [[<- _] | [[? _] | [[= <-] ->]]]); try done.
      exists (Str.digits_val l). split; [| done]. by apply Hun. }
  destruct (decide (a = "+"%char)) as [-> | Hplus].
  { change (Str.signed_digits ("+"%char :: l)) with
      (match l with
       | [] => None
       | _ => if forallb Str.is_digit l
              then Some (Str.digits_val l) else None
       end).
    rewrite Hun. split.
    - intros (Hne & Hd & ->). exists l.
      split; [done |]. split; [done |]. right. left. done.
    - intros (ds & Hne & Hd & [[<- _] | [[[= <-] ->] | [? _]]]); try done. }
  assert (Hsd : Str.signed_digits (a :: l)
                = if forallb Str.is_digit (a :: l)
                  then Some (Str.digits_val (a :: l)) else None).
  { destruct a as [[] [] [] [] [] [] [] []]; try reflexivity; congruence. }
  rewrite Hsd. split.
  - destruct (forallb Str.is_digit (a :: l)) eqn:E; [| done].
    intros [= <-]. exists (a :: l).
    split; [done |]. split; [done |]. left. done.
  - intros (ds & Hne & Hd & [[<- ->] | [[[= ? _] _] | [[= ? _] _]]]);
      [by rewrite Hd | done | done].
Qed.

Lemma signed_digits_no_ws l z :
  Str.signed_digits l = Some z →
  Forall (λ a, Str.is_ws a = false ∧ (N_of_ascii a < 128)%N) l.
Proof.
  intros (ds & _ & Hd & Hl)%signed_digits_Some.
  assert (Hds : Forall (λ a, Str.is_ws a = false ∧ (N_of_ascii a < 128)%N) ds).
  { apply Forall_forall. intros a Ha. apply digit_not_ws.
    rewrite forallb_forall in Hd. by apply Hd, list_elem_of_In. }
  destruct Hl as [[-> _] | [[-> _] | [-> _]]]; [done | |];
    (constructor; [by vm_compute | done]).
Qed.

(** [Number] of a string the pattern accepts is the integer it denotes. *)
Lemma StringToNumber_signed s z :
  Str.signed_digits (list_ascii_of_string s) = Some z →
  StringToNumber s = Int z.
Proof.
  intros Hz. unfold StringToNumber.
  rewrite <- (string_of_list_ascii_of_string s) at 1.
  rewrite trim_id by (by eapply signed_digits_no_ws).
  rewrite list_ascii_of_string_of_list_ascii.
  destruct (list_ascii_of_string s) as [| a l]; [done |]. by rewrite Hz.
Qed.

(** The integer check on strings: accepted are exactly the texts made of an
    optional sign and at least one decimal digit whose value is within the
    bounds; leading zeroes pass, surrounding white space does not. *)
Lemma isInt_exactly min max s :
  isInt min max s = true ↔
  ∃ z, Str.signed_digits (list_ascii_of_string s) = Some z ∧ min <= z <= max.
Proof.
  unfold isInt. rewrite andb_true_iff, bool_decide_eq_true. split.
  - intros [[z Hz] Hr]. exists z. split; [done |].
    rewrite (StringToNumber_signed s z Hz) in Hr. lia.
  - intros (z & Hz & Hr). split; [by eexists |].
    rewrite (StringToNumber_signed s z Hz). lia.
Qed.

Lemma pretty_N_char_digit x :
  (x < 10)%N →
  Str.is_digit (pretty_N_char x) = true
  ∧ Str.digit_val (pretty_N_char x) = Z.of_N x.
Proof.
  intros Hx.
  assert (H : x ∈ (N.of_nat <$> seq 0 10)).
  { apply list_elem_of_fmap. exists (N.to_nat x). split; [lia |].
    apply elem_of_seq. lia. }
  simpl in H.
  repeat (apply elem_of_cons in H as [-> | H]; [by vm_compute |]).
  by apply elem_of_nil in H.
Qed.

Lemma digits_val_snoc ds c :
  Str.digits_val (ds ++ [c]) = 10 * Str.digits_val ds + Str.digit_val c.
Proof. unfold Str.digits_val. by rewrite fold_left_app. Qed.

(** The decimal digits [pretty] prints denote the number printed. *)
Lemma pretty_N_go_digits x s :
  ∃ ds,
    list_ascii_of_string (pretty_N_go x s)
    = (ds ++ list_ascii_of_string s)%list
    ∧ forallb Str.is_digit ds = true
    ∧ Str.digits_val ds = Z.of_N x
    ∧ ((0 < x)%N → ds ≠ []).
Proof.
  revert s. induction (N.lt_wf_0 x) as [x _ IH]; intros s.
  destruct (decide (x = 0%N)) as [-> | Hx].
  - exists []. rewrite pretty_N_go_0. repeat split; try done; lia.
  - rewrite pretty_N_go_step by lia.
    destruct (IH (x `div` 10)%N (N.div_lt x 10 ltac:(lia) ltac:(lia))
                (String (pretty_N_char (x `mod` 10)) s))
      as (ds & Hl & Hd & Hv & _).
    destruct (pretty_N_char_digit (x `mod` 10)%N) as [Hc1 Hc2];
      [apply N.mod_lt; lia |].
    exists (ds ++ [pretty_N_char (x `mod` 10)])%list.
    split; [| split; [| split]].
    + rewrite Hl. simpl. by rewrite <- app_assoc.
    + rewrite forallb_app, Hd. simpl. by rewrite Hc1.
    + rewrite digits_val_snoc, Hv, Hc2.
      rewrite (N.div_mod x 10) at 3 by lia. lia.
    + intros _. by destruct ds.
Qed.

Lemma signed_digits_pretty z :
  Str.signed_digits (list_ascii_of_string (pretty z)) = Some z.
Proof.
  assert (Hpos : ∀ p, ∃ ds,
            list_ascii_of_string (pretty (Npos p)) = ds
            ∧ ds ≠ [] ∧ forallb Str.is_digit ds = true
            ∧ Str.digits_val ds = Zpos p).
  { intros p. unfold pretty, pretty_N.
    rewrite decide_False by done.
    destruct (pretty_N_go_digits (Npos p) "") as (ds & Hl & Hd & Hv & Hne).
    exists ds. rewrite Hl. simpl. rewrite app_nil_r.
    split; [done |]. split; [apply Hne; lia |]. split; [done |]. by rewrite Hv. }
  destruct z as [| p | p].
  - reflexivity.
  - destruct (Hpos p) as (ds & Hl & Hne & Hd & Hv).
    change (pretty (Zpos p)) with (pretty (Npos p)).
    apply signed_digits_Some. exists ds.
    split; [done |]. split; [done |]. left.
    split; [exact Hl | by rewrite Hv].
  - destruct (Hpos p) as (ds & Hl & Hne & Hd & Hv).
    change (pretty (Zneg p)) with ("-" +:+ pretty (Npos p)).
    apply signed_digits_Some. exists ds.
    split; [done |]. split; [done |]. right. right.
    split; [| by rewrite Hv].
    change ("-"%char :: list_ascii_of_string (pretty (Npos p)) = "-"%char :: ds).
    f_equal. exact Hl.
Qed.

(** The integer check on a JSON number: a numeric rating passes exactly
    when it lies within the bounds. *)
Lemma isInt_number min max z :
  isInt min max (toString (Some (JNum z))) = (min <=? z) && (z <=? max).
Proof.
  unfold isInt, toString.
  rewrite bool_decide_eq_true_2
    by (rewrite signed_digits_pretty; by eexists).
  by rewrite (StringToNumber_signed _ z (signed_digits_pretty z)).
Qed.

(** ** Ratings stay within 0 and 5 *)

Lemma isInt_json min max (v : option json) :
  isInt min max (toString v) = true →
  ∃ z, Number (of_json <$> v) = Int z ∧ min <= z <= max.
Proof.
  intros H. destruct v as [[| b | z | s] |]; simpl in *.
  - by apply andb_true_iff in H as [[? [=]]%bool_decide_eq_true _].
  - destruct b; by apply andb_true_iff in H as [[? [=]]%bool_decide_eq_true _].
  - apply andb_true_iff in H as [_ H].
    rewrite (StringToNumber_signed _ z (signed_digits_pretty z)) in H.
    exists z. split; [done | lia].
  - by apply isInt_range.
  - by apply andb_true_iff in H as [[? [=]]%bool_decide_eq_true _].
Qed.

Lemma validated_put_rating isEmail b :
  validationResult isEmail put_reviews_rules b = [] →
  b !! "rating" = None ∨ isInt 0 5 (toString (b !! "rating")) = true.
Proof.
  intros Hv.
  pose proof (proj1 (validationResult_nil _ _ _) Hv
                (optional "rating" (IsInt 0 5))) as H.
  unfold violates in H. simpl in H.
  destruct (b !! "rating") as [j |] eqn:E; [| by left].
  right. apply negb_false_iff, H. unfold put_reviews_rules. do 3 right. left.
Qed.

Lemma updateOne_Forall (P : doc → Prop) accepts o upd c count c' :
  (∀ d d', P d → apply_set accepts upd d = Some d' → P d') →
  Forall P c → updateOne accepts o upd c = Some (count, c') → Forall P c'.
Proof.
  intros Hset. revert count c'.
  induction c as [| d c IH]; intros count c' Hc; cbn [updateOne].
  - by intros [= <- <-].
  - apply Forall_cons in Hc as [Hd Hc]. case_bool_decide.
    + destruct (apply_set accepts upd d) as [d' |] eqn:E; [| done]. simpl.
      intros [= <- <-]. constructor; [by eapply Hset | done].
    + destruct (updateOne accepts o upd c) as [[k c''] |] eqn:E; [| done].
      simpl.
      intros [= <- <-]. constructor; [done | by eapply IH].
Qed.

Lemma deleteOne_Forall (P : doc → Prop) o c :
  Forall P c → Forall P (deleteOne o c).2.
Proof.
  induction 1 as [| d c Hd Hc IH]; cbn [deleteOne]; [done |].
  case_bool_decide; [done |].
  destruct (deleteOne o c) as [k c']. simpl in *. by constructor.
Qed.

Lemma apply_set_rating isEmail accepts b d d' :
  validationResult isEmail put_reviews_rules b = [] →
  rating_in_range d → apply_set accepts (of_json <$> b) d = Some d' →
  rating_in_range d'.
Proof.
  intros Hv Hd Hset.
  assert (Hd' : d' = (of_json <$> b) ∪ d)
    by (by apply apply_set_Some in Hset as [? _]).
  subst d'. unfold rating_in_range.
  destruct (validated_put_rating isEmail b Hv) as [Hnone | Hint].
  - rewrite lookup_union_r by (by rewrite lookup_fmap, Hnone). exact Hd.
  - destruct (b !! "rating") as [j |] eqn:E.
    + rewrite (lookup_union_Some_l _ _ _ (of_json j))
        by (by rewrite lookup_fmap, E).
      by apply isInt_json in Hint.
    + by apply andb_true_iff in Hint as [[? [=]]%bool_decide_eq_true _].
Qed.

Lemma serve_ratings isEmail language_ok regex_i now req st out :
  serve isEmail language_ok regex_i now req st = Some out →
  Forall rating_in_range (reviewCollection st) →
  Forall rating_in_range (reviewCollection out.2).
Proof.
  intros Hs Hr. destruct req; simpl in Hs; simplify_eq/=; try done.
  - destruct (validationResult isEmail post_reviews_rules b) eqn:Hv;
      [| by unfold post_reviews, handleValidationErrors; rewrite Hv].
    rewrite post_reviews_validated by done.
    destruct (insert_review _ _ _) as [[i c] |] eqn:E; [| done].
    apply insert_review_Some in E as [_ E].
    apply insertOne_Some in E as (_ & -> & _). simpl.
    apply Forall_app. split; [done |]. constructor; [| done].
    unfold rating_in_range, review_doc.
    rewrite !lookup_insert_ne, lookup_fmap by done.
    apply isInt_json. by apply (validated_rating isEmail).
  - destruct (validationResult isEmail put_reviews_rules b) eqn:Hv;
      [| by unfold put_review, handleValidationErrors; rewrite Hv].
    rewrite put_review_validated by done.
    destruct (ObjectId id); [| done].
    destruct (updateOne _ _ _) as [[count c] |] eqn:E; [| done].
    assert (Hc : Forall rating_in_range c).
    { eapply updateOne_Forall; [| exact Hr | exact E].
      intros d d' Hd Hset. by eapply apply_set_rating. }
    by destruct (count =? 0)%nat.
  - unfold delete_review. destruct (ObjectId id) as [o |]; [| done].
    pose proof (deleteOne_Forall _ o _ Hr) as Hd.
    destruct (deleteOne o _) as [count c]. by destruct (count =? 0)%nat.
  - unfold post_favorites, handleValidationErrors.
    destruct (validationResult _ _ _); [| done].
    destruct (findOne _ _); [done |]. by destruct (insertOne _ _) as [[] |].
  - by rewrite delete_favorite_keeps_reviews.
Qed.

(** Whatever requests with bodies of JSON scalars are served, one at a
    time, from the empty database, every stored review has a rating that
    reads as an integer between 0 and 5, whether it was submitted as a
    number or as a string; so [GET /reviews/top] and [GET /reviews/:id]
    never answer with a rating outside that range, and never with [NaN]. *)
Theorem reachable_ratings_in_range isEmail language_ok regex_i reqs st :
  run isEmail language_ok regex_i reqs empty_db = Some st →
  Forall rating_in_range (reviewCollection st)
  ∧ (∃ l, sent (get_reviews_top st) = DocArray l
          ∧ Forall (λ d : doc, ∃ z, d !! "rating" = Some (VNum (Int z))
                                    ∧ 0 <= z <= 5) l)
  ∧ (∀ id d, sent (get_review id st) = Document d →
       ∃ z, d !! "rating" = Some (VNum (Int z)) ∧ 0 <= z <= 5).
Proof.
  assert (Hgen : ∀ st0, run isEmail language_ok regex_i reqs st0 = Some st →
            Forall rating_in_range (reviewCollection st0) →
            Forall rating_in_range (reviewCollection st)).
  { induction reqs as [| [now req] reqs IH]; intros st0 Hr Hu; simpl in Hr.
    - by injection Hr as <-.
    - destruct (serve isEmail language_ok regex_i now req st0) as [out |]
        eqn:Hs; [| done].
      simpl in Hr. eapply IH; [exact Hr |]. by eapply serve_ratings. }
  intros Hrun.
  assert (Hinv : Forall rating_in_range (reviewCollection st))
    by (by apply (Hgen empty_db)).
  assert (Hout : ∀ d, d ∈ reviewCollection st →
            ∃ z, with_rating d !! "rating" = Some (VNum (Int z)) ∧ 0 <= z <= 5).
  { intros d Hd. rewrite with_rating_rating.
    destruct (proj1 (Forall_forall _ _) Hinv d Hd) as (z & -> & Hz). eauto. }
  split; [done |]. split.
  - destruct (get_reviews_top_bounded st) as (l & -> & _ & Hsub & _).
    eexists. split; [done |]. apply Forall_fmap, Forall_forall.
    intros d Hd. simpl. by apply Hout, Hsub.
  - intros id d. unfold get_review. destruct (ObjectId id) as [o |]; [| done].
    destruct (findOne _ _) as [r |] eqn:E; [| done]. intros [= <-].
    apply Hout. by apply findOne_Some in E as [? _].
Qed.

Lemma reachable_ratings_in_range_witness :
  Forall rating_in_range (reviewCollection mixed_ratings).
Proof.
  apply (reachable_ratings_in_range Email.isEmail Text.language_ok Regex.compile
           [(100, PostReviews (taco (JStr "1")));
            (200, PostReviews (taco (JNum 5)))]).
  vm_compute. reflexivity.
Defined.

(** ** What is stored and what is read *)

Lemma run_ratings isEmail language_ok regex_i reqs st0 st :
  run isEmail language_ok regex_i reqs st0 = Some st →
  Forall rating_in_range (reviewCollection st0) →
  Forall rating_in_range (reviewCollection st).
Proof.
  revert st0. induction reqs as [| [now req] reqs IH]; intros st0 Hr Hu;
    simpl in Hr.
  - by injection Hr as <-.
  - destruct (serve isEmail language_ok regex_i now req st0) as [out |] eqn:Hs;
      [| done].
    simpl in Hr. eapply IH; [exact Hr |]. by eapply serve_ratings.
Qed.

Lemma with_rating_integer d :
  rating_in_range d → integer_rating (with_rating d).
Proof.
  intros (z & Hz & Hr). exists z. by rewrite with_rating_rating, Hz.
Qed.

Lemma post_reviews_201 isEmail language_ok now b st id st' :
  post_reviews isEmail language_ok now b st =
    ({| status := 201; sent := InsertResult id |}, st') →
  validationResult isEmail post_reviews_rules b = []
  ∧ insertOne (review_doc b now) (reviewCollection st)
    = Some (id, reviewCollection st').
Proof.
  destruct (validationResult isEmail post_reviews_rules b) eqn:Hv.
  - rewrite post_reviews_validated by done.
    destruct (insert_review _ _ _) as [[id' c] |] eqn:E; [| done].
    apply insert_review_Some in E as [_ E]. by intros [= <- <-].
  - unfold post_reviews, handleValidationErrors. by rewrite Hv.
Qed.

Lemma isInt_scalar min max (j : json) :
  isInt min max (toString (Some j)) = true →
  (∃ n, j = JNum n) ∨ (∃ s, j = JStr s).
Proof.
  destruct j as [| b | n | s]; [| | by left; eexists | by right; eexists].
  - by intros [[? [=]]%bool_decide_eq_true _]%andb_true_iff.
  - destruct b;
      by intros [[? [=]]%bool_decide_eq_true _]%andb_true_iff.
Qed.

(** C1, as the code has it, for request bodies whose fields are JSON
    scalars. In every state the server reaches from the empty database,
    each of the three read paths answers with ratings that are integers
    between 0 and 5 of the number type. [POST /reviews] stores the rating
    as it was submitted: of the number type exactly when it was submitted
    as a number, and as the string itself when it was submitted as a
    string; either way it denotes an integer between 0 and 5, and a
    get-by-id of the created review returns that integer. *)
Theorem rating_stored_verbatim_read_numeric
    isEmail language_ok regex_i reqs st :
  run isEmail language_ok regex_i reqs empty_db = Some st →
  (∀ userEmail search l,
     sent (get_reviews regex_i userEmail search st) = Reviews l →
     Forall integer_rating l)
  ∧ (∀ l, sent (get_reviews_top st) = DocArray l → Forall integer_rating l)
  ∧ (∀ s d, sent (get_review s st) = Document d → integer_rating d)
  ∧ (∀ now b id st',
       post_reviews isEmail language_ok now b st =
         ({| status := 201; sent := InsertResult id |}, st') →
       ∃ (review : doc) z,
         reviewCollection st' = (reviewCollection st ++ [review])%list
         ∧ review !! "rating" = of_json <$> b !! "rating"
         ∧ Number (review !! "rating") = Int z
         ∧ 0 <= z <= 5
         ∧ (is_number (review !! "rating")
            ↔ ∃ n, b !! "rating" = Some (JNum n))
         ∧ (∀ t, b !! "rating" = Some (JStr t) →
              review !! "rating" = Some (VStr t))
         ∧ ∀ s o, id = VId o → ObjectId s = Some o →
             ∃ d, get_review s st' = {| status := 200; sent := Document d |}
                  ∧ d !! "rating" = Some (VNum (Int z))).
Proof.
  intros Hrun.
  assert (Hinv : Forall rating_in_range (reviewCollection st))
    by (by apply (run_ratings _ _ _ _ _ _ Hrun)).
  assert (Hout : ∀ d, d ∈ reviewCollection st → integer_rating (with_rating d)).
  { intros d Hd. apply with_rating_integer.
    by apply (proj1 (Forall_forall _ _) Hinv). }
  split; [| split; [| split]].
  - intros userEmail search l. unfold get_reviews.
    destruct (reviews_query _ _ _) as [q |]; [| done]. intros [= <-].
    apply Forall_fmap, Forall_forall. intros d Hd. simpl. apply Hout.
    rewrite sort_desc_Permutation in Hd. by apply elem_of_find in Hd as [? _].
  - intros l.
    destruct (get_reviews_top_bounded st) as (l' & -> & _ & Hsub & _).
    intros [= <-]. apply Forall_fmap, Forall_forall.
    intros d Hd. simpl. by apply Hout, Hsub.
  - intros s d. unfold get_review. destruct (ObjectId s) as [o |]; [| done].
    destruct (findOne _ _) as [r |] eqn:E; [| done]. intros [= <-].
    apply Hout. by apply findOne_Some in E as [? _].
  - intros now b id st' Hpost.
    apply post_reviews_201 in Hpost as [Hv Hins].
    apply insertOne_Some in Hins as (_ & Hst' & Hno).
    pose proof (validated_rating isEmail b Hv) as Hint.
    assert (Hr : (<["_id" := id]> (review_doc b now)) !! "rating"
                 = of_json <$> b !! "rating").
    { unfold review_doc. by rewrite !lookup_insert_ne, lookup_fmap. }
    destruct (isInt_json 0 5 _ Hint) as (z & Hz & Hrange).
    exists (<["_id" := id]> (review_doc b now)), z.
    split; [done |]. split; [done |]. rewrite Hr.
    split; [done |]. split; [done |]. split; [| split].
    + destruct (b !! "rating") as [j |] eqn:Hj.
      * apply isInt_scalar in Hint as [[n ->] | [t ->]]; simpl.
        -- split; [intros _; by exists n | intros _; by exists n].
        -- split; [by intros [? [=]] | by intros [? [=]]].
      * simpl. split; [by intros [? [=]] | by intros [? [=]]].
    + by intros t ->.
    + intros s o -> Hs. unfold get_review. rewrite Hs, Hst'.
      rewrite findOne_inserted by done.
      eexists. split; [done |].
      by rewrite with_rating_rating, Hr, Hz.
Qed.

Lemma rating_stored_verbatim_read_numeric_witness :
  ∃ (review : doc) d,
    reviewCollection
      (post_reviews Email.isEmail Text.language_ok 300 (taco (JStr "4"))
         mixed_ratings).2
    = (reviewCollection mixed_ratings ++ [review])%list
    ∧ review !! "rating" = Some (VStr "4")
    ∧ get_review "000000000000000000000003"
        (post_reviews Email.isEmail Text.language_ok 300 (taco (JStr "4"))
           mixed_ratings).2
      = {| status := 200; sent := Document d |}
    ∧ d !! "rating" = Some (VNum (Int 4)).
Proof.
  destruct (rating_stored_verbatim_read_numeric Email.isEmail Text.language_ok
              Regex.compile
              [(100, PostReviews (taco (JStr "1")));
               (200, PostReviews (taco (JNum 5)))] mixed_ratings)
    as (_ & _ & _ & Hpost).
  - vm_compute. reflexivity.
  - destruct (Hpost 300 (taco (JStr "4")) (VId 3)
                (post_reviews Email.isEmail Text.language_ok 300
                   (taco (JStr "4")) mixed_ratings).2)
      as (review & z & Hst & _ & Hz & _ & _ & Hstr & Hget).
    + vm_compute. reflexivity.
    + destruct (Hget "000000000000000000000003" 3%N eq_refl eq_refl)
        as (d & Hd & Hrating).
      exists review, d. split; [exact Hst |].
      pose proof (Hstr "4" eq_refl) as Hs. split; [exact Hs |].
      split; [exact Hd |]. rewrite Hs in Hz. vm_compute in Hz.
      injection Hz as <-. exact Hrating.
Defined.

(** ** Missing and empty fields *)

Lemma isInt_empty min max : isInt min max "" = false.
Proof. reflexivity. Qed.

Lemma violates_empty isEmail b r :
  r_check r ≠ IsEmail → toString (b !! r_field r) = "" →
  violates isEmail b r
  = negb (r_optional r && bool_decide (b !! r_field r = None)).
Proof.
  intros Hc He. unfold violates.
  destruct (b !! r_field r) as [j |] eqn:E.
  - rewrite He, andb_false_r. simpl. by destruct (r_check r).
  - rewrite andb_true_r. destruct (r_optional r); [done |].
    simpl. by destruct (r_check r).
Qed.

(** A field under a non-empty or integer rule that is null or the empty
    string is refused with 400 on every route; a missing one is refused
    where the rule is required ([POST /reviews], [POST /favorites]) and
    skipped where it is optional: a [PUT /reviews/:id] body without any of
    the four validated fields passes validation. No state changes with
    the 400. *)
Theorem empty_fields_validation isEmail language_ok regex_i now req st r :
  r ∈ rules_of req → r_check r ≠ IsEmail →
  toString (body_of req !! r_field r) = "" →
  (r_optional r = false ∨ is_Some (body_of req !! r_field r) →
     ∃ errs,
       serve isEmail language_ok regex_i now req st =
         Some ({| status := 400; sent := Errors errs |}, st)
       ∧ error_of r ∈ errs)
  ∧ (r_optional r = true → body_of req !! r_field r = None →
       violates isEmail (body_of req) r = false)
  ∧ (∀ b, (∀ f, f ∈ ["foodName"; "foodImage"; "restaurantName"; "rating"] →
            b !! f = None) →
       validationResult isEmail put_reviews_rules b = []).
Proof.
  intros Hr Hc He.
  pose proof (violates_empty isEmail (body_of req) r Hc He) as Hv.
  split; [| split].
  - intros Hreq.
    assert (Hvi : violates isEmail (body_of req) r = true).
    { rewrite Hv. destruct Hreq as [-> | [j Hj]]; [done |].
      rewrite Hj, andb_false_r. done. }
    exists (validationResult isEmail (rules_of req) (body_of req)). split.
    + destruct req; simpl in Hr; try (by apply elem_of_nil in Hr); simpl;
        f_equal;
        [unfold post_reviews | unfold put_review | unfold post_favorites];
        by apply handleValidationErrors_rejects with r.
    + apply elem_of_validationResult. eauto.
  - intros Ho Hn. rewrite Hv, Ho, Hn. done.
  - intros b Hb. apply validationResult_nil. intros r' Hr'.
    unfold put_reviews_rules in Hr'.
    repeat (apply elem_of_cons in Hr' as [-> | Hr'];
            [unfold violates; simpl; rewrite Hb; [done |];
             repeat (first [left; done | right]) |]).
    by apply elem_of_nil in Hr'.
Qed.

Lemma empty_fields_validation_witness :
  ∃ errs,
    serve Email.isEmail Text.language_ok Regex.compile 100
      (PostReviews (<["foodName" := JStr ""]> (taco (JNum 4)))) empty_db
    = Some ({| status := 400; sent := Errors errs |}, empty_db)
    ∧ error_of (required "foodName" NotEmpty) ∈ errs.
Proof.
  apply (empty_fields_validation Email.isEmail Text.language_ok Regex.compile 100
           (PostReviews (<["foodName" := JStr ""]> (taco (JNum 4))))
           empty_db (required "foodName" NotEmpty)).
  - simpl. unfold post_reviews_rules. left.
  - discriminate.
  - reflexivity.
  - left. reflexivity.
Defined.

(** ** A search of white space *)

Lemma string_of_list_ascii_empty l : string_of_list_ascii l = "" ↔ l = [].
Proof. destruct l; split; done. Qed.

Lemma white_space_1 a :
  Str.is_ws a = true →
  N_of_ascii a ∈ white_space ∧ utf8 (N_of_ascii a) = [a].
Proof.
  destruct a as [[] [] [] [] [] [] [] []]; intros H; vm_compute in H;
    try discriminate H;
    (split; [apply (bool_decide_unpack _); vm_compute; exact I | reflexivity]).
Qed.

Lemma white_space_2 a b :
  ((N_of_ascii a =? 194) && (N_of_ascii b =? 160))%N = true →
  (160 ∈ white_space)%N ∧ utf8 160 = [a; b].
Proof.
  intros [Ha%N.eqb_eq Hb%N.eqb_eq]%andb_true_iff.
  split; [apply (bool_decide_unpack _); vm_compute; exact I |].
  rewrite <- (ascii_N_embedding a), <- (ascii_N_embedding b), Ha, Hb.
  reflexivity.
Qed.

Lemma white_space_3 a b c :
  Str.ws3 (N_of_ascii a) (N_of_ascii b) (N_of_ascii c) = true →
  ∃ cp, cp ∈ white_space ∧ utf8 cp = [a; b; c].
Proof.
  rewrite <- (ascii_N_embedding a), <- (ascii_N_embedding b),
    <- (ascii_N_embedding c).
  rewrite !N_ascii_embedding by apply N_ascii_bounded.
  generalize (N_of_ascii a) as x, (N_of_ascii b) as y, (N_of_ascii c) as z.
  intros x y z H.
  exists ((x - 224) * 4096 + (y - 128) * 64 + (z - 128))%N.
  unfold Str.ws3 in H.
  rewrite !orb_true_iff, !andb_true_iff, !orb_true_iff, !andb_true_iff,
    !N.eqb_eq, !N.leb_le in H.
  assert (Hc : (x = 225 ∧ y = 154 ∧ z = 128)%N
               ∨ (x = 226 ∧ y = 128
                  ∧ (z = 128 ∨ z = 129 ∨ z = 130 ∨ z = 131 ∨ z = 132
                     ∨ z = 133 ∨ z = 134 ∨ z = 135 ∨ z = 136 ∨ z = 137
                     ∨ z = 138 ∨ z = 168 ∨ z = 169 ∨ z = 175))%N
               ∨ (x = 226 ∧ y = 129 ∧ z = 159)%N
               ∨ (x = 227 ∧ y = 128 ∧ z = 128)%N
               ∨ (x = 239 ∧ y = 187 ∧ z = 191)%N) by lia.
  clear H.
  repeat match goal with
         | H : _ ∨ _ |- _ => destruct H as [H | H]
         | H : _ ∧ _ |- _ => destruct H as [? H]
         end; subst;
    (split; [apply (bool_decide_unpack _); vm_compute; exact I | reflexivity]).
Qed.

(** What [Str.ws_len] measures is one white space character. *)
Lemma ws_len_white_space cp rest :
  cp ∈ white_space →
  Str.ws_len (utf8 cp ++ rest) = length (utf8 cp) ∧ length (utf8 cp) ≠ 0%nat.
Proof.
  intros H. unfold white_space in H.
  repeat (apply elem_of_cons in H as [-> | H]; [by split |]).
  by apply elem_of_nil in H.
Qed.

Lemma ws_len_inv l k :
  Str.ws_len l = S k →
  ∃ cp rest, cp ∈ white_space ∧ l = (utf8 cp ++ rest)%list
             ∧ S k = length (utf8 cp).
Proof.
  destruct l as [| a l1]; [done |]. unfold Str.ws_len.
  destruct (Str.is_ws a) eqn:Ha.
  { intros [= <-]. apply white_space_1 in Ha as [Hin Hu].
    exists (N_of_ascii a), l1. by rewrite Hu. }
  destruct l1 as [| b l2]; [done |].
  destruct ((N_of_ascii a =? 194) && (N_of_ascii b =? 160))%N eqn:E2.
  { intros [= <-]. apply white_space_2 in E2 as [Hin Hu].
    exists 160%N, l2. by rewrite Hu. }
  destruct l2 as [| c l3]; [done |].
  destruct (Str.ws3 _ _ _) eqn:E3; [| done].
  intros [= <-]. apply white_space_3 in E3 as (cp & Hin & Hu).
  exists cp, l3. by rewrite Hu.
Qed.

Lemma ws_len_back_inv r k :
  Str.ws_len_back r = S k →
  ∃ cp rest, cp ∈ white_space ∧ r = (rev (utf8 cp) ++ rest)%list
             ∧ S k = length (utf8 cp).
Proof.
  destruct r as [| c r1]; [done |]. unfold Str.ws_len_back.
  destruct (Str.is_ws c) eqn:Hc.
  { intros [= <-]. apply white_space_1 in Hc as [Hin Hu].
    exists (N_of_ascii c), r1. by rewrite Hu. }
  destruct r1 as [| b r2]; [done |].
  destruct ((N_of_ascii b =? 194) && (N_of_ascii c =? 160))%N eqn:E2.
  { intros [= <-]. apply white_space_2 in E2 as [Hin Hu].
    exists 160%N, r2. by rewrite Hu. }
  destruct r2 as [| a r3]; [done |].
  destruct (Str.ws3 _ _ _) eqn:E3; [| done].
  intros [= <-]. apply white_space_3 in E3 as (cp & Hin & Hu).
  exists cp, r3. by rewrite Hu.
Qed.

Lemma drop_ws_nil len fuel : len [] = 0%nat → Str.drop_ws len fuel [] = [].
Proof. intros H. destruct fuel; simpl; [done |]. by rewrite H. Qed.

(** With fuel for every byte, [Str.drop_ws] drops white space characters
    from the head and from nothing else. *)
Lemma drop_ws_front fuel l :
  (length l <= fuel)%nat →
  ∃ cps, Forall (λ cp, cp ∈ white_space) cps
         ∧ l = (concat (utf8 <$> cps) ++ Str.drop_ws Str.ws_len fuel l)%list.
Proof.
  revert l. induction fuel as [| fuel IH]; intros l Hl.
  - exists []. by split.
  - cbn [Str.drop_ws]. destruct (Str.ws_len l) as [| k] eqn:E.
    + exists []. by split.
    + apply ws_len_inv in E as (cp & rest & Hin & -> & Hk).
      rewrite Hk, drop_app_length.
      destruct (IH rest) as (cps & Hcps & Hrest).
      { rewrite length_app in Hl. lia. }
      exists (cp :: cps). split; [by constructor |].
      rewrite fmap_cons. cbn [concat]. rewrite <- app_assoc. by f_equal.
Qed.

Lemma drop_ws_back fuel r :
  (length r <= fuel)%nat →
  ∃ cps, Forall (λ cp, cp ∈ white_space) cps
         ∧ rev r = (rev (Str.drop_ws Str.ws_len_back fuel r)
                    ++ concat (utf8 <$> cps))%list.
Proof.
  revert r. induction fuel as [| fuel IH]; intros r Hr.
  - exists []. split; [done |]. simpl. by rewrite app_nil_r.
  - cbn [Str.drop_ws]. destruct (Str.ws_len_back r) as [| k] eqn:E.
    + exists []. split; [done |]. simpl. by rewrite app_nil_r.
    + apply ws_len_back_inv in E as (cp & rest & Hin & -> & Hk).
      rewrite Hk, <- length_rev, drop_app_length.
      destruct (IH rest) as (cps & Hcps & Hrest).
      { rewrite length_app, length_rev in Hr. lia. }
      exists (cps ++ [cp])%list.
      split; [apply Forall_app; by split; [| constructor] |].
      rewrite rev_app_distr, rev_involutive, Hrest, fmap_app, concat_app.
      simpl. by rewrite app_nil_r, app_assoc.
Qed.

Lemma drop_ws_blank fuel cps :
  Forall (λ cp, cp ∈ white_space) cps →
  (length (concat (utf8 <$> cps)) <= fuel)%nat →
  Str.drop_ws Str.ws_len fuel (concat (utf8 <$> cps)) = [].
Proof.
  intros H. revert fuel. induction H as [| cp cps Hcp _ IH]; intros fuel Hl.
  - by apply drop_ws_nil.
  - rewrite fmap_cons in *. cbn [concat] in *.
    destruct (ws_len_white_space cp (concat (utf8 <$> cps)) Hcp) as [Hw Hne].
    rewrite length_app in Hl.
    destruct fuel as [| fuel]; [lia |]. cbn [Str.drop_ws]. rewrite Hw.
    destruct (length (utf8 cp)) as [| k] eqn:Hk; [done |].
    rewrite <- Hk, drop_app_length. apply IH. lia.
Qed.

(** [trim] leaves nothing exactly of the texts made of white space. *)
Lemma trim_empty s : Str.trim s = "" ↔ blank s.
Proof.
  unfold Str.trim, blank. rewrite string_of_list_ascii_empty.
  set (l := list_ascii_of_string s). split.
  - intros H. apply (f_equal (@rev ascii)) in H.
    rewrite rev_involutive in H. simpl in H.
    destruct (drop_ws_front (length l) l) as (cps1 & H1 & Hl); [done |].
    set (front := Str.drop_ws Str.ws_len (length l) l) in *.
    destruct (drop_ws_back (length l) (rev front)) as (cps2 & H2 & Hf).
    { rewrite length_rev. apply (f_equal length) in Hl.
      rewrite length_app in Hl. fold front in Hl. lia. }
    rewrite H, rev_involutive in Hf. simpl in Hf.
    exists (cps1 ++ cps2)%list. split; [by apply Forall_app |].
    by rewrite fmap_app, concat_app, <- Hf.
  - intros (cps & Hcps & Hl). rewrite Hl.
    rewrite drop_ws_blank by done. simpl. by rewrite drop_ws_nil.
Qed.

(** The search is skipped exactly when it is made of white space only
    (the empty search included), and then [GET /reviews] answers as
    without a search; any other search is handed to the storage untrimmed,
    as the last condition of the filter. *)
Theorem whitespace_search_ignored regex_i userEmail s st :
  (search_active (Some s) = false ↔ blank s)
  ∧ (search_active (Some s) = false →
       get_reviews regex_i userEmail (Some s) st
       = get_reviews regex_i userEmail None st)
  ∧ (search_active (Some s) = true →
       ∀ m, regex_i s = Some m →
       ∃ q, reviews_query regex_i userEmail (Some s) = Some q
            ∧ last q = Some ("foodName", RegexI m)).
Proof.
  split; [| split].
  - unfold search_active. rewrite <- trim_empty.
    destruct (String.eqb_spec s "") as [-> | Hs]; simpl; [done |].
    destruct (String.eqb_spec (Str.trim s) "") as [-> | Ht]; simpl; [done |].
    split; [done | by intros].
  - intros Ha. unfold get_reviews, reviews_query.
    unfold search_active in Ha. by rewrite Ha.
  - intros Ha m Hm. unfold reviews_query. unfold search_active in Ha.
    rewrite Ha, Hm. simpl. eexists. split; [done |]. by rewrite last_snoc.
Qed.

Lemma whitespace_search_ignored_witness :
  get_reviews Regex.compile None
    (Some (String " " (String (ascii_of_N 194) (String (ascii_of_N 160) ""))))
    one_review
  = get_reviews Regex.compile None None one_review.
Proof.
  apply (whitespace_search_ignored Regex.compile None
           (String " " (String (ascii_of_N 194) (String (ascii_of_N 160) "")))
           one_review).
  vm_compute. reflexivity.
Defined.

(** ** The two variants of the review routes *)

(** The promise-chain handlers and the async/await handlers of
    [/reviews/:id] answer alike and write alike for every well-formed
    identifier, and with the same status and no write for a malformed one;
    they differ only in the body of that 500, the handler's JSON message
    in the async variant, Express's error page in the promise variant. *)
Theorem async_variant_agrees isEmail language_ok id b st :
  (is_Some (ObjectId id) →
     Async.get_review id st = get_review id st
     ∧ Async.put_review isEmail language_ok id b st
       = put_review isEmail language_ok id b st
     ∧ Async.delete_review id st = delete_review id st)
  ∧ status (Async.get_review id st) = status (get_review id st)
  ∧ status (Async.put_review isEmail language_ok id b st).1
    = status (put_review isEmail language_ok id b st).1
  ∧ (Async.put_review isEmail language_ok id b st).2
    = (put_review isEmail language_ok id b st).2
  ∧ status (Async.delete_review id st).1 = status (delete_review id st).1
  ∧ (Async.delete_review id st).2 = (delete_review id st).2
  ∧ (ObjectId id = None →
       sent (Async.get_review id st) = Message "Failed to fetch review"
       ∧ sent (get_review id st) = ErrorPage).
Proof.
  unfold Async.get_review, get_review, Async.put_review, put_review,
    Async.delete_review, delete_review, handleValidationErrors.
  destruct (ObjectId id) as [o |]; simpl.
  - repeat split; done.
  - repeat split; try done; try (by intros [? [=]]);
      by destruct (validationResult _ _ _).
Qed.

(** ** The top reviews are the highest stored ratings *)

Lemma string_leb_iff s t :
  String.leb s t = true ↔ s = t ∨ OrderedTypeEx.String_as_OT.lt s t.
Proof.
  unfold String.leb.
  destruct (String.compare s t) eqn:E.
  - apply OrderedTypeEx.String_as_OT.cmp_eq in E. tauto.
  - apply OrderedTypeEx.String_as_OT.cmp_lt in E. tauto.
  - split; [done |]. intros [-> | H].
    + assert (String.compare t t = Datatypes.Eq)
        by (by apply OrderedTypeEx.String_as_OT.cmp_eq).
      congruence.
    + apply OrderedTypeEx.String_as_OT.cmp_lt in H.
      unfold OrderedTypeEx.String_as_OT.cmp in H. congruence.
Qed.

Lemma string_leb_trans s t u :
  String.leb s t = true → String.leb t u = true → String.leb s u = true.
Proof.
  rewrite !string_leb_iff. intros [-> | H1] [-> | H2]; auto.
  right. by eapply OrderedTypeEx.String_as_OT.lt_trans.
Qed.

Lemma bson_leb_trans a b c :
  bson_leb a b = true → bson_leb b c = true → bson_leb a c = true.
Proof.
  destruct a as [| x | [x |] | s | x | x], b as [| y | [y |] | t | y | y],
    c as [| z | [z |] | u | z | z]; simpl; try done.
  - destruct x, y, z; done.
  - intros H1%Z.leb_le H2%Z.leb_le. apply Z.leb_le. lia.
  - apply string_leb_trans.
  - intros H1%Z.leb_le H2%Z.leb_le. apply Z.leb_le. lia.
  - intros H1%N.leb_le H2%N.leb_le. apply N.leb_le. lia.
Qed.

#[global] Instance desc_by_trans k : Transitive (desc_by k).
Proof. intros d1 d2 d3 H12 H23. unfold desc_by in *. by eapply bson_leb_trans. Qed.

(** [GET /reviews/top] answers with exactly the first six reviews in the
    storage's descending order of the stored rating, all of them when
    fewer than six are stored: every review left out has a stored rating
    at most that of every review returned. *)
Theorem get_reviews_top_dominates st :
  ∃ l rest,
    get_reviews_top st =
      {| status := 200; sent := DocArray (with_rating <$> l) |}
    ∧ (l ++ rest)%list ≡ₚ reviewCollection st
    ∧ length l = (6 `min` length (reviewCollection st))%nat
    ∧ ∀ x y, x ∈ l → y ∈ rest →
        bson_leb (sort_key "rating" y) (sort_key "rating" x) = true.
Proof.
  set (s := sort_desc "rating" (reviewCollection st)).
  exists (take 6 s), (drop 6 s).
  assert (Hperm : s ≡ₚ reviewCollection st) by apply sort_desc_Permutation.
  split; [| split; [| split]].
  - unfold get_reviews_top. by rewrite find_all.
  - by rewrite take_drop.
  - rewrite length_take. by rewrite (Permutation_length Hperm).
  - intros x y Hx Hy.
    assert (Hs : StronglySorted (desc_by "rating") (take 6 s ++ drop 6 s)).
    { rewrite take_drop.
      apply (StronglySorted_merge_sort (desc_by "rating")). }
    exact (StronglySorted_app_1_elem_of _ _ _ _ _ Hs Hx Hy).
Qed.

(** ** Removing a favorite and adding it again *)

Lemma pair_count_app e r c1 c2 :
  pair_count e r (c1 ++ c2)%list = (pair_count e r c1 + pair_count e r c2)%nat.
Proof. unfold pair_count, find. by rewrite List.filter_app, length_app. Qed.

Lemma pair_count_cons e r d c :
  pair_count e r (d :: c)
  = ((if matches (pair_query e r) d then 1 else 0) + pair_count e r c)%nat.
Proof.
  unfold pair_count. rewrite find_cons.
  by destruct (matches (pair_query e r) d).
Qed.

(** With no pair stored twice, a favorite that has been removed through
    [DELETE /favorites/:id] can be added again: the same [POST /favorites]
    that would have been answered 400 before the removal is answered 201
    after it, and the pair is stored once. *)
Theorem unfavorite_then_favorite isEmail now id o b st pre d post :
  validationResult isEmail post_favorites_rules b = [] →
  ObjectId id = Some o →
  favoritesCollection st = (pre ++ d :: post)%list →
  d !! "_id" = Some (VId o) →
  (∀ x, x ∈ pre → x !! "_id" ≠ Some (VId o)) →
  matches (pair_query (body_field b "userEmail") (body_field b "reviewId")) d
    = true →
  unique_pairs (favoritesCollection st) →
  let e := body_field b "userEmail" in
  let r := body_field b "reviewId" in
  let st1 := (delete_favorite id st).2 in
  post_favorites isEmail now b st =
    ({| status := 400; sent := Message "Already favorited" |}, st)
  ∧ favoritesCollection st1 = (pre ++ post)%list
  ∧ status (post_favorites isEmail now b st1).1 = 201
  ∧ pair_count e r (favoritesCollection (post_favorites isEmail now b st1).2)
    = 1%nat.
Proof.
  intros Hv Ho Hc Hd Hpre Hm Hu e r st1.
  assert (Hst1 : favoritesCollection st1 = (pre ++ post)%list).
  { unfold st1, delete_favorite. by rewrite Ho, Hc, deleteOne_first_match. }
  assert (Hcount : pair_count e r (pre ++ post)%list = 0%nat).
  { specialize (Hu e r). rewrite Hc, pair_count_app, pair_count_cons in Hu.
    fold e r in Hm. rewrite Hm in Hu. rewrite pair_count_app. lia. }
  split; [| split; [done |]].
  - rewrite post_favorites_validated by done. fold e r.
    pose proof (pair_count_findOne e r (favoritesCollection st)) as Hf.
    destruct (findOne (pair_query e r) (favoritesCollection st)); [done |].
    rewrite Hc, pair_count_app, pair_count_cons in Hf.
    fold e r in Hm. rewrite Hm in Hf. lia.
  - rewrite post_favorites_validated by done. fold e r. rewrite Hst1.
    pose proof (pair_count_findOne e r (pre ++ post)%list) as Hf.
    destruct (findOne (pair_query e r) (pre ++ post)%list); [lia |].
    simpl. split; [done |].
    rewrite pair_count_snoc, Hcount, bool_decide_eq_true_2 by done. done.
Qed.

Lemma unfavorite_then_favorite_witness :
  let st := (post_favorites Email.isEmail 200 (favorite "r1") empty_db).2 in
  let st1 := (delete_favorite "000000000000000000000001" st).2 in
  status (post_favorites Email.isEmail 300 (favorite "r1") st1).1 = 201.
Proof.
  intros st st1.
  apply (unfavorite_then_favorite Email.isEmail 300
           "000000000000000000000001" 1%N (favorite "r1") st []
           (<["_id" := VId 1]>
              (favorite_doc (VStr "a@b.com") (VStr "r1") 200)) []).
  - vm_compute. reflexivity.
  - reflexivity.
  - vm_compute. reflexivity.
  - vm_compute. reflexivity.
  - intros x Hx. by apply elem_of_nil in Hx.
  - vm_compute. reflexivity.
  - intros e r. unfold st.
    assert (Hst : favoritesCollection
              (post_favorites Email.isEmail 200 (favorite "r1") empty_db).2
            = [<["_id" := VId 1]>
                 (favorite_doc (VStr "a@b.com") (VStr "r1") 200)])
      by (vm_compute; reflexivity).
    rewrite Hst, pair_count_cons. unfold pair_count. simpl length.
    destruct (matches _ _); lia.
Defined.

(** ** A favorite with a malformed review identifier *)

Lemma matches_pair_fields e r d :
  matches (pair_query (VStr e) (VStr r)) d = true →
  d !! "userEmail" = Some (VStr e) ∧ d !! "reviewId" = Some (VStr r).
Proof.
  unfold matches, pair_query. simpl. rewrite andb_true_r, andb_true_iff.
  destruct (d !! "userEmail") as [x |], (d !! "reviewId") as [y |];
    simpl; rewrite ?bool_decide_eq_true; intros [H1 H2]; try done.
  by subst.
Qed.

Lemma get_favorites_malformed email st fav s :
  fav ∈ favoritesCollection st →
  fav !! "userEmail" = Some (VStr email) →
  fav !! "reviewId" = Some (VStr s) → ObjectId s = None →
  get_favorites email st =
    {| status := 500; sent := Message "Failed to fetch favorites" |}.
Proof.
  intros Hin He Hr Hs. unfold get_favorites.
  assert (Hnone : mapM (populate (reviewCollection st))
                    (find [("userEmail", Eq (VStr email))]
                       (favoritesCollection st)) = None).
  { apply mapM_None, Exists_exists. exists fav. split.
    - apply elem_of_find. split; [done |].
      rewrite matches_email. by apply bool_decide_eq_true.
    - unfold populate. by rewrite Hr, lookup_review_malformed. }
  by rewrite Hnone.
Qed.

(** [POST /favorites] accepts any non-empty [reviewId] and never looks at
    the reviews. Once a request with a [reviewId] that is not an
    identifier has passed validation, the listing of that user's favorites
    answers 500, whatever else the user has favorited. *)
Theorem malformed_favorite_breaks_listing isEmail now b st email s :
  validationResult isEmail post_favorites_rules b = [] →
  b !! "userEmail" = Some (JStr email) →
  b !! "reviewId" = Some (JStr s) →
  ObjectId s = None →
  let out := post_favorites isEmail now b st in
  (status out.1 = 201 ∨ status out.1 = 400)
  ∧ reviewCollection out.2 = reviewCollection st
  ∧ get_favorites email out.2 =
      {| status := 500; sent := Message "Failed to fetch favorites" |}.
Proof.
  intros Hv He Hr Hs out. unfold out.
  rewrite (post_favorites_validated isEmail now b st Hv).
  unfold body_field. rewrite He, Hr. simpl.
  destruct (findOne _ (favoritesCollection st)) as [d |] eqn:E.
  - apply findOne_Some in E as [Hin Hm].
    apply matches_pair_fields in Hm as [Hde Hdr].
    split; [by right |]. split; [done |].
    by eapply get_favorites_malformed.
  - split; [by left |]. split; [done |].
    eapply (get_favorites_malformed email _
              (<["_id" := VId (fresh_oid (favoritesCollection st))]>
                 (favorite_doc (VStr email) (VStr s) now)) s).
    + simpl. apply elem_of_app. right. left.
    + unfold favorite_doc.
      by repeat first [rewrite lookup_insert_eq | rewrite lookup_insert_ne by done].
    + unfold favorite_doc.
      by repeat first [rewrite lookup_insert_eq | rewrite lookup_insert_ne by done].
    + done.
Qed.

Lemma malformed_favorite_breaks_listing_witness :
  get_favorites "a@b.com"
    (post_favorites Email.isEmail 300 (favorite "bad")
       (post_favorites Email.isEmail 200 (favorite "000000000000000000000001")
          one_review).2).2
  = {| status := 500; sent := Message "Failed to fetch favorites" |}.
Proof.
  apply (malformed_favorite_breaks_listing Email.isEmail 300 (favorite "bad")
           (post_favorites Email.isEmail 200
              (favorite "000000000000000000000001") one_review).2
           "a@b.com" "bad").
  - vm_compute. reflexivity.
  - reflexivity.
  - reflexivity.
  - reflexivity.
Defined.

(** ** Numeric ratings *)

(** A rating sent as a JSON number that is an integer passes the rating
    rule of [POST /reviews] and of [PUT /reviews/:id] exactly when it lies
    between 0 and 5; an integer outside that range is answered 400 by both
    routes, with an entry for [rating], and nothing is written. *)
Theorem numeric_rating_bounds isEmail language_ok now id b st z :
  b !! "rating" = Some (JNum z) →
  violates isEmail b (required "rating" (IsInt 0 5))
    = negb ((0 <=? z) && (z <=? 5))
  ∧ violates isEmail b (optional "rating" (IsInt 0 5))
    = negb ((0 <=? z) && (z <=? 5))
  ∧ (¬ 0 <= z <= 5 →
       (∃ errs, post_reviews isEmail language_ok now b st =
                  ({| status := 400; sent := Errors errs |}, st)
                ∧ {| field := "rating"; message := "Invalid value" |} ∈ errs)
       ∧ (∃ errs, put_review isEmail language_ok id b st =
                    ({| status := 400; sent := Errors errs |}, st)
                  ∧ {| field := "rating"; message := "Invalid value" |} ∈ errs)).
Proof.
  intros Hb.
  assert (Hreq : violates isEmail b (required "rating" (IsInt 0 5))
                 = negb ((0 <=? z) && (z <=? 5))).
  { unfold violates. simpl. rewrite Hb. simpl passes.
    change (pretty z) with (toString (Some (JNum z))).
    by rewrite isInt_number. }
  assert (Hopt : violates isEmail b (optional "rating" (IsInt 0 5))
                 = negb ((0 <=? z) && (z <=? 5))).
  { unfold violates. simpl. rewrite Hb. simpl passes.
    change (pretty z) with (toString (Some (JNum z))).
    by rewrite isInt_number. }
  split; [done |]. split; [done |]. intros Hz.
  assert (Hout : (0 <=? z) && (z <=? 5) = false).
  { apply andb_false_iff.
    destruct (Z.leb_spec 0 z), (Z.leb_spec z 5); auto. lia. }
  rewrite Hout in Hreq, Hopt. split.
  - exists (validationResult isEmail post_reviews_rules b). split.
    + unfold post_reviews.
      apply handleValidationErrors_rejects with (required "rating" (IsInt 0 5));
        [| done].
      unfold post_reviews_rules. do 3 right. left.
    + apply elem_of_validationResult.
      exists (required "rating" (IsInt 0 5)). split; [| done].
      unfold post_reviews_rules. do 3 right. left.
  - exists (validationResult isEmail put_reviews_rules b). split.
    + unfold put_review.
      apply handleValidationErrors_rejects with (optional "rating" (IsInt 0 5));
        [| done].
      unfold put_reviews_rules. do 3 right. left.
    + apply elem_of_validationResult.
      exists (optional "rating" (IsInt 0 5)). split; [| done].
      unfold put_reviews_rules. do 3 right. left.
Qed.

Lemma numeric_rating_bounds_witness :
  ∃ errs,
    post_reviews Email.isEmail Text.language_ok 100 (taco (JNum 6)) empty_db =
      ({| status := 400; sent := Errors errs |}, empty_db)
    ∧ {| field := "rating"; message := "Invalid value" |} ∈ errs.
Proof.
  destruct (numeric_rating_bounds Email.isEmail Text.language_ok 100 ""
              (taco (JNum 6))
              empty_db 6 eq_refl) as (_ & _ & H).
  destruct H as [H _]; [lia | exact H].
Defined.

Lemma reachable_unique_pairs_witness :
  unique_pairs (favoritesCollection two_favorites).
Proof.
  apply (reachable_unique_pairs Email.isEmail Text.language_ok Regex.compile
           [(100, PostReviews (taco (JNum 4)));
            (200, PostFavorites (favorite "000000000000000000000001"));
            (300, PostFavorites (favorite "bad"))]).
  vm_compute. reflexivity.
Defined.
